(** * QueueCTL: the job store, the executor and the control surface

    A shallow embedding of [queuectl/entities.py], [queuectl/database.py],
    [queuectl/worker_logic.py] and the job commands of [queuectl/cli.py].

    Conventions of the model.
    - Python [int] is [Z]; [str] is [string]; [Optional[...]] is [option].
    - A timestamp is the text the code stores, and timestamps are compared
      the way SQLite compares TEXT values: byte by byte ([String.compare]).
    - The clock is an input: an instant is a number of microseconds since
      1970-01-01T00:00:00 UTC, and [isoformat] renders it the way
      [datetime.isoformat] does.  Adding a [timedelta] to an instant
      raises [OverflowError] outside the years 1..9999, as Python does.
    - A text is the sequence of its UTF-8 bytes.
    - The [jobs] table is the list of its rows in row order; its primary
      key is [id].  The database is reliable: no statement raises; the
      table holds integers of any size (see [storable]).
    - What the program prints is not part of the model, and printing
      never raises. *)

From Stdlib Require Import ZArith List Bool Lia Ascii String DecimalString.
From Stdlib Require Import Sorting.Sorted.
From stdpp Require Import gmap strings.
Import ListNotations.

Local Open Scope string_scope.
Local Open Scope list_scope.
Local Open Scope Z_scope.

(** ** Text helpers *)

(** [str(n)] for a Python [int]. *)
Definition str_of_int (n : Z) : string :=
  NilZero.string_of_int (Z.to_int n).

Definition digit (d : Z) : ascii := ascii_of_nat (48 + Z.to_nat d).

(** The [w] low decimal digits of [n], most significant first
    (["%0wd"] for [0 <= n < 10^w]). *)
Fixpoint zfill (w : nat) (n : Z) : string :=
  match w with
  | O => EmptyString
  | S w' => zfill w' (n / 10) +:+ String (digit (n mod 10)) EmptyString
  end.

(** Whitespace removed by [str.strip()]: the characters for which
    [str.isspace] holds.  A text is its UTF-8 bytes, so a whitespace
    character is one, two or three bytes long:
    U+0009..U+000D, U+001C..U+0020 (one byte);
    U+0085, U+00A0 (C2 85, C2 A0);
    U+1680 (E1 9A 80); U+2000..U+200A (E2 80 80 .. E2 80 8A);
    U+2028, U+2029, U+202F (E2 80 A8, E2 80 A9, E2 80 AF);
    U+205F (E2 81 9F); U+3000 (E3 80 80). *)
Definition is_space (c : ascii) : bool :=
  let n := N_of_ascii c in
  ((9 <=? n) && (n <=? 13) || (28 <=? n) && (n <=? 32))%N.

Definition is_space2 (c1 c2 : ascii) : bool :=
  let n1 := N_of_ascii c1 in
  let n2 := N_of_ascii c2 in
  ((n1 =? 194) && ((n2 =? 133) || (n2 =? 160)))%N.

Definition is_space3 (c1 c2 c3 : ascii) : bool :=
  let n1 := N_of_ascii c1 in
  let n2 := N_of_ascii c2 in
  let n3 := N_of_ascii c3 in
  ((n1 =? 225) && (n2 =? 154) && (n3 =? 128)
   || (n1 =? 226) && (n2 =? 128)
      && ((128 <=? n3) && (n3 <=? 138)
          || (n3 =? 168) || (n3 =? 169) || (n3 =? 175))
   || (n1 =? 226) && (n2 =? 129) && (n3 =? 159)
   || (n1 =? 227) && (n2 =? 128) && (n3 =? 128))%N.

(** The text is exactly one whitespace character. *)
Definition one_space (s : string) : bool :=
  match s with
  | String c1 EmptyString => is_space c1
  | String c1 (String c2 EmptyString) => is_space2 c1 c2
  | String c1 (String c2 (String c3 EmptyString)) => is_space3 c1 c2 c3
  | _ => false
  end.

Fixpoint lstrip (s : string) : string :=
  match s with
  | String c1 r1 =>
      if is_space c1 then lstrip r1
      else
        match r1 with
        | String c2 r2 =>
            if is_space2 c1 c2 then lstrip r2
            else
              match r2 with
              | String c3 r3 => if is_space3 c1 c2 c3 then lstrip r3 else s
              | EmptyString => s
              end
        | EmptyString => s
        end
  | EmptyString => EmptyString
  end.

Fixpoint rstrip (s : string) : string :=
  match s with
  | String c r =>
      let kept := String c (rstrip r) in
      if one_space kept then EmptyString else kept
  | EmptyString => EmptyString
  end.

Definition strip (s : string) : string := rstrip (lstrip s).

(** ** The clock and its two renderings *)

Module Clock.

(** Proleptic Gregorian date of a day count since 1970-01-01. *)
Definition civil_from_days (z : Z) : Z * Z * Z :=
  let z := z + 719468 in
  let era := z / 146097 in
  let doe := z - era * 146097 in
  let yoe := (doe - doe / 1460 + doe / 36524 - doe / 146096) / 365 in
  let doy := doe - (365 * yoe + yoe / 4 - yoe / 100) in
  let mp := (5 * doy + 2) / 153 in
  let d := doy - (153 * mp + 2) / 5 + 1 in
  let m := if mp <? 10 then mp + 3 else mp - 9 in
  let y := yoe + era * 400 + (if m <=? 2 then 1 else 0) in
  (y, m, d).

Definition date_part (secs : Z) : string :=
  let '(y, m, d) := civil_from_days (secs / 86400) in
  zfill 4 y +:+ "-" +:+ zfill 2 m +:+ "-" +:+ zfill 2 d.

Definition time_part (secs : Z) : string :=
  let sod := secs mod 86400 in
  zfill 2 (sod / 3600) +:+ ":" +:+ zfill 2 (sod mod 3600 / 60)
    +:+ ":" +:+ zfill 2 (sod mod 60).

(** [datetime.isoformat()] of the instant [t] (microseconds): the
    fraction is printed only when it is not zero. *)
Definition isoformat (t : Z) : string :=
  let secs := t / 1000000 in
  let us := t mod 1000000 in
  date_part secs +:+ "T" +:+ time_part secs
    +:+ (if us =? 0 then EmptyString else "." +:+ zfill 6 us).

(** [datetime.utcnow().isoformat() + "Z"] read at instant [t]. *)
Definition utc_stamp (t : Z) : string := isoformat t +:+ "Z".

(** The instants a [datetime] can hold: 0001-01-01T00:00:00 to
    9999-12-31T23:59:59.999999, in microseconds since 1970-01-01. *)
Definition datetime_min : Z := -62135596800000000.
Definition datetime_max : Z := 253402300799999999.

Definition representable (t : Z) : bool :=
  (datetime_min <=? t) && (t <=? datetime_max).

(** The value of an expression that may raise [OverflowError]. *)
Inductive raises (A : Type) :=
| Value (a : A)
| OverflowError (text : string).
Arguments Value {A} a.
Arguments OverflowError {A} text.

(** [timedelta(seconds=s)] for an [int] [s], in microseconds.  The day
    count is first converted to a C [int], then held to at most
    999999999 in magnitude. *)
Definition timedelta (s : Z) : raises Z :=
  let days := s / 86400 in
  if (days <? - 2 ^ 31) || (2 ^ 31 <=? days) then
    OverflowError "Python int too large to convert to C int"
  else if (days <? -999999999) || (999999999 <? days) then
    OverflowError
      ("days=" +:+ str_of_int days +:+ "; must have magnitude <= 999999999")
  else Value (s * 1000000).

(** [t + delta] for a [datetime] [t] and a [timedelta] [delta]. *)
Definition datetime_add (t delta : Z) : raises Z :=
  if representable (t + delta) then Value (t + delta)
  else OverflowError "date value out of range".

(** [utcnow() + timedelta(seconds=s)], the clock read at [t]. *)
Definition add_seconds (t s : Z) : raises Z :=
  match timedelta s with
  | Value delta => datetime_add t delta
  | OverflowError text => OverflowError text
  end.

(** The instant a stamp denotes: the inverse of [utc_stamp], [None] for
    a text that [utc_stamp] does not produce.  The program never parses
    a stamp, it compares the texts; this reading words the time
    comparisons of the specification. *)
Definition days_from_civil (y m d : Z) : Z :=
  let y := if m <=? 2 then y - 1 else y in
  let era := y / 400 in
  let yoe := y - era * 400 in
  let mp := if m <=? 2 then m + 9 else m - 3 in
  let doy := (153 * mp + 2) / 5 + d - 1 in
  let doe := yoe * 365 + yoe / 4 - yoe / 100 + doy in
  era * 146097 + doe - 719468.

Fixpoint number (s : string) (acc : Z) : Z :=
  match s with
  | String c r => number r (acc * 10 + (Z.of_N (N_of_ascii c) - 48))
  | EmptyString => acc
  end.

Definition number_at (start len : nat) (s : string) : Z :=
  number (String.substring start len s) 0.

Definition instant_of (s : string) : option Z :=
  let days :=
    days_from_civil (number_at 0 4 s) (number_at 5 2 s) (number_at 8 2 s) in
  let secs :=
    days * 86400 + number_at 11 2 s * 3600 + number_at 14 2 s * 60
      + number_at 17 2 s in
  let t := secs * 1000000 + number_at 20 6 s in
  if String.eqb (utc_stamp t) s then Some t else None.

(** SQLite's [datetime('now', '-5 minutes')] read at instant [t]:
    ["YYYY-MM-DD HH:MM:SS"], whole seconds. *)
Definition sqlite_5_minutes_ago (t : Z) : string :=
  let secs := t / 1000000 - 300 in
  date_part secs +:+ " " +:+ time_part secs.

End Clock.

(** ** entities.py *)

Module JobState.
Definition PENDING : string := "pending".
Definition PROCESSING : string := "processing".
Definition COMPLETED : string := "completed".
Definition FAILED : string := "failed".
Definition DEAD : string := "dead".
End JobState.

(** The dataclass [Job]; a row of the [jobs] table has the same
    thirteen columns. *)
Record Job := mkJob {
  id : string;
  command : string;
  state : string;
  attempts : Z;
  max_retries : Z;
  timeout : option Z;
  priority : Z;
  created_at : string;
  updated_at : string;
  next_retry_at : option string;
  error_message : option string;
  locked_by : option string;
  locked_at : option string
}.

(** Attribute assignments [job.f = v]. *)
Definition set_state (v : string) (j : Job) : Job :=
  mkJob (id j) (command j) v (attempts j) (max_retries j) (timeout j)
    (priority j) (created_at j) (updated_at j) (next_retry_at j)
    (error_message j) (locked_by j) (locked_at j).

Definition set_attempts (v : Z) (j : Job) : Job :=
  mkJob (id j) (command j) (state j) v (max_retries j) (timeout j)
    (priority j) (created_at j) (updated_at j) (next_retry_at j)
    (error_message j) (locked_by j) (locked_at j).

Definition set_updated_at (v : string) (j : Job) : Job :=
  mkJob (id j) (command j) (state j) (attempts j) (max_retries j) (timeout j)
    (priority j) (created_at j) v (next_retry_at j)
    (error_message j) (locked_by j) (locked_at j).

Definition set_next_retry_at (v : option string) (j : Job) : Job :=
  mkJob (id j) (command j) (state j) (attempts j) (max_retries j) (timeout j)
    (priority j) (created_at j) (updated_at j) v
    (error_message j) (locked_by j) (locked_at j).

Definition set_error_message (v : option string) (j : Job) : Job :=
  mkJob (id j) (command j) (state j) (attempts j) (max_retries j) (timeout j)
    (priority j) (created_at j) (updated_at j) (next_retry_at j)
    v (locked_by j) (locked_at j).

Definition set_lock (by_ at_ : option string) (j : Job) : Job :=
  mkJob (id j) (command j) (state j) (attempts j) (max_retries j) (timeout j)
    (priority j) (created_at j) (updated_at j) (next_retry_at j)
    (error_message j) by_ at_.

(** The dataclass [Config].  [worker_poll_interval], a float read only by
    the idle sleep of the worker loop, is left out. *)
Record Config := mkConfig {
  cfg_max_retries : Z;
  backoff_base : Z;
  job_timeout : Z
}.

Definition default_config : Config := mkConfig 3 2 300.

(** A value of a decoded JSON object that can be well typed for a field
    of [Job]: [null], an integer or a string. *)
Inductive pyval :=
| PNone
| PInt (n : Z)
| PStr (s : string).

(** The outcome of building a [Job] from keyword arguments.  Python does
    not check the annotations of a dataclass: a value of another type than
    the annotation is stored as it is.  The model is typed, so such a
    dictionary is reported as [Untyped] and theorems speak about the
    others. *)
Inductive built (A : Type) :=
| Built (a : A)
| TypeError (text : string)
| Untyped (key : string).
Arguments Built {A} a.
Arguments TypeError {A} text.
Arguments Untyped {A} key.

Definition bind {A B} (m : built A) (k : A -> built B) : built B :=
  match m with
  | Built a => k a
  | TypeError s => TypeError s
  | Untyped s => Untyped s
  end.

Notation "'let*' x ':=' m 'in' k" := (bind m (fun x => k))
  (at level 10, x name, m at level 100, k at level 200).

Section FromDict.

Variable data : gmap string pyval.

(** The two fields without a default.  The text is the one CPython
    (3.10 and later) gives the [TypeError] of the constructor. *)
Definition required : built (pyval * pyval) :=
  let missing := "Job.__init__() missing " in
  match data !! "id", data !! "command" with
  | Some v_id, Some v_command => Built (v_id, v_command)
  | None, Some _ =>
      TypeError (missing +:+ "1 required positional argument: 'id'")
  | Some _, None =>
      TypeError (missing +:+ "1 required positional argument: 'command'")
  | None, None =>
      TypeError
        (missing +:+ "2 required positional arguments: 'id' and 'command'")
  end.

Definition as_str (k : string) (v : pyval) : built string :=
  match v with PStr s => Built s | _ => Untyped k end.

Definition as_int (k : string) (v : pyval) : built Z :=
  match v with PInt n => Built n | _ => Untyped k end.

Definition as_opt_str (k : string) (v : pyval) : built (option string) :=
  match v with
  | PNone => Built None
  | PStr s => Built (Some s)
  | PInt _ => Untyped k
  end.

Definition as_opt_int (k : string) (v : pyval) : built (option Z) :=
  match v with
  | PNone => Built None
  | PInt n => Built (Some n)
  | PStr _ => Untyped k
  end.

(** A keyword argument with a default value. *)
Definition keyword {A} (conv : string -> pyval -> built A) (k : string)
    (dflt : A) : built A :=
  match data !! k with
  | Some v => conv k v
  | None => Built dflt
  end.

(** [Job.from_dict(data)] evaluated at instant [now]: the keys that are
    not fields of the dataclass are dropped, the others are the keyword
    arguments of the constructor; [__post_init__] fills the two
    timestamps that are [None]. *)
Definition from_dict (now : Z) : built Job :=
  let* args := required in
  let* j_id := as_str "id" (fst args) in
  let* j_command := as_str "command" (snd args) in
  let* j_state := keyword as_str "state" JobState.PENDING in
  let* j_attempts := keyword as_int "attempts" 0 in
  let* j_max_retries := keyword as_int "max_retries" 3 in
  let* j_timeout := keyword as_opt_int "timeout" None in
  let* j_priority := keyword as_int "priority" 2 in
  let* j_created_at := keyword as_opt_str "created_at" None in
  let* j_updated_at := keyword as_opt_str "updated_at" None in
  let* j_next_retry_at := keyword as_opt_str "next_retry_at" None in
  let* j_error_message := keyword as_opt_str "error_message" None in
  let* j_locked_by := keyword as_opt_str "locked_by" None in
  let* j_locked_at := keyword as_opt_str "locked_at" None in
  Built (mkJob j_id j_command j_state j_attempts j_max_retries j_timeout
           j_priority
           (default (Clock.utc_stamp now) j_created_at)
           (default (Clock.utc_stamp now) j_updated_at)
           j_next_retry_at j_error_message j_locked_by j_locked_at).

End FromDict.

(** ** database.py *)

(** The database file: the rows of [jobs] in row order and the [config]
    table ([None] while it has no row). *)
Record Storage := mkStorage {
  jobs : list Job;
  config : option Config
}.

Definition empty_storage : Storage := mkStorage [] None.

Definition with_jobs (rows : list Job) (db : Storage) : Storage :=
  mkStorage rows (config db).

(** The [Job] built from a fetched row.  Every SELECT of the job store
    names eleven columns; the two lock columns are not among them, so the
    dataclass defaults ([None]) stand in for them. *)
Definition job_of_row (row : Job) : Job := set_lock None None row.

Definition has_id (job_id : string) (row : Job) : bool :=
  String.eqb (id row) job_id.

(** [DELETE FROM jobs WHERE id = ?]. *)
Definition delete_rows (job_id : string) (rows : list Job) : list Job :=
  List.filter (fun row => negb (has_id job_id row)) rows.

(** [UPDATE jobs SET ... WHERE id = ?]. *)
Definition update_rows (job_id : string) (f : Job -> Job) (rows : list Job)
    : list Job :=
  List.map (fun row => if has_id job_id row then f row else row) rows.

(** The integers an INTEGER column holds.  Binding a Python [int]
    outside this range raises [OverflowError] in [sqlite3]; [save_job]
    catches it, returns [False] and writes nothing. *)
Definition sqlite_int (n : Z) : bool := (- 2 ^ 63 <=? n) && (n <? 2 ^ 63).

(** The four integer fields of a job can be bound to the INSERT. *)
Definition storable (job : Job) : bool :=
  sqlite_int (attempts job) && sqlite_int (max_retries job)
  && match timeout job with
     | Some t => sqlite_int t
     | None => true
     end
  && sqlite_int (priority job).

(** [Storage.save_job] at instant [now].  The job object gets the new
    [updated_at]; INSERT OR REPLACE removes the row of the same [id] and
    adds the new row, whose lock columns are NULL.  The table of the
    model holds integers of any size, so the write always succeeds; for
    a job that is not [storable] the program's write fails, and the
    statements about what a worker's write leaves in the table are made
    for [storable] jobs. *)
Definition save_job (now : Z) (job : Job) (db : Storage)
    : bool * Job * Storage :=
  let job' := set_updated_at (Clock.utc_stamp now) job in
  let row := set_lock None None job' in
  (true, job', with_jobs (delete_rows (id job) (jobs db) ++ [row]) db).

(** [Storage.get_job]. *)
Definition get_job (job_id : string) (db : Storage) : option Job :=
  option_map job_of_row (List.find (has_id job_id) (jobs db)).

(** The dispatch order [ORDER BY priority ASC, created_at ASC]. *)
Definition dispatch_le (a b : Job) : bool :=
  (priority a <? priority b)
  || ((priority a =? priority b) && String.leb (created_at a) (created_at b)).

(** ORDER BY as a stable insertion sort.  SQL leaves the order of rows
    that the sort keys do not tell apart to the engine; SQLite keeps them
    in the order in which its scan meets them, the order of the list
    given to [order_by]. *)
Fixpoint insert_row (le : Job -> Job -> bool) (x : Job) (l : list Job)
    : list Job :=
  match l with
  | [] => [x]
  | y :: r => if le x y then x :: l else y :: insert_row le x r
  end.

Fixpoint order_by (le : Job -> Job -> bool) (l : list Job) : list Job :=
  match l with
  | [] => []
  | x :: r => insert_row le x (order_by le r)
  end.

(** The WHERE clause of [acquire_job].  [now] is the text bound to the
    parameter, [stale_before] is the value of
    [datetime('now', '-5 minutes')]; a comparison with NULL is not true. *)
Definition retry_ready (now : string) (row : Job) : bool :=
  match next_retry_at row with
  | None => true
  | Some t => String.leb t now
  end.

Definition lock_free (stale_before : string) (row : Job) : bool :=
  match locked_by row with
  | None => true
  | Some _ =>
      match locked_at row with
      | None => false
      | Some t => String.ltb t stale_before
      end
  end.

Definition eligible (now stale_before : string) (row : Job) : bool :=
  (String.eqb (state row) JobState.PENDING
   || (String.eqb (state row) JobState.FAILED && retry_ready now row))
  && lock_free stale_before row.

(** The order in which the SELECT of [acquire_job] meets the rows.
    SQLite answers the OR of the WHERE clause from the index on [state]
    (MULTI-INDEX OR over [idx_jobs_state]): first the rows in state
    [pending], then the rows in state [failed], each group in row
    order. *)
Definition scan_order (rows : list Job) : list Job :=
  List.filter (fun row => String.eqb (state row) JobState.PENDING) rows
  ++ List.filter (fun row => String.eqb (state row) JobState.FAILED) rows.

(** The SELECT of [acquire_job]: WHERE, ORDER BY, LIMIT 1.  SQL leaves
    open which of several rows equal under ORDER BY comes first; here it
    is the one met first in [scan_order]. *)
Definition select_candidate (now stale_before : string) (rows : list Job)
    : option Job :=
  head (order_by dispatch_le
          (List.filter (eligible now stale_before) (scan_order rows))).

(** [Storage.acquire_job(worker_id)]: Python reads its clock at [now],
    SQLite reads its own at [db_now] (both in microseconds). *)
Definition acquire_job (worker_id : string) (now db_now : Z) (db : Storage)
    : option Job * Storage :=
  let now_text := Clock.utc_stamp now in
  match select_candidate now_text (Clock.sqlite_5_minutes_ago db_now)
          (jobs db) with
  | Some row =>
      let job := job_of_row row in
      let lock r :=
        set_state JobState.PROCESSING
          (set_lock (Some worker_id) (Some now_text) r) in
      (Some (set_state JobState.PROCESSING job),
       with_jobs (update_rows (id job) lock (jobs db)) db)
  | None => (None, db)
  end.

(** [Storage.release_job]. *)
Definition release_job (job_id : string) (db : Storage) : Storage :=
  with_jobs (update_rows job_id (set_lock None None) (jobs db)) db.

(** [Storage.delete_job]. *)
Definition delete_job (job_id : string) (db : Storage) : bool * Storage :=
  (true, with_jobs (delete_rows job_id (jobs db)) db).

(** [Storage.get_jobs_by_state]. *)
Definition get_jobs_by_state (st : string) (db : Storage) : list Job :=
  List.map job_of_row
    (order_by dispatch_le
       (List.filter (fun row => String.eqb (state row) st) (jobs db))).

(** [Storage.save_config] and [Storage.get_config]: an empty table is
    seeded with the defaults. *)
Definition save_config (cfg : Config) (db : Storage) : Storage :=
  mkStorage (jobs db) (Some cfg).

Definition get_config (db : Storage) : Config * Storage :=
  match config db with
  | Some cfg => (cfg, db)
  | None => (default_config, save_config default_config db)
  end.

(** ** worker_logic.py *)

(** What [subprocess.run] did: it returned, it raised [TimeoutExpired],
    or it raised another exception whose text is [str(e)]. *)
Inductive run_outcome :=
| Returned (returncode : Z) (stdout stderr : string)
| TimeoutExpired
| Raised (text : string).

Module Worker.

(** [Worker._handle_job_failure], the clock read at [now]: the job
    object as the call leaves it, and the text of the [OverflowError]
    when the computation of the retry time raises it (the job then has
    its new [error_message] and [state], and its old [next_retry_at]).
    For a negative exponent Python's [**] yields a float; the
    statements about the backoff below are for [attempts >= 0]. *)
Definition _handle_job_failure (cfg : Config) (now : Z) (job : Job)
    (error_message : string) : Job * option string :=
  let job := set_error_message (Some error_message) job in
  if attempts job >=? max_retries job then
    (set_next_retry_at None (set_state JobState.DEAD job), None)
  else
    let job := set_state JobState.FAILED job in
    let backoff_seconds := backoff_base cfg ^ attempts job in
    match Clock.add_seconds now backoff_seconds with
    | Clock.Value next_retry =>
        (set_next_retry_at (Some (Clock.utc_stamp next_retry)) job, None)
    | Clock.OverflowError text => (job, Some text)
    end.

(** [getattr(job, 'timeout', None) or self.config.job_timeout]. *)
Definition timeout_used (cfg : Config) (job : Job) : Z :=
  match timeout job with
  | Some t => if t =? 0 then job_timeout cfg else t
  | None => job_timeout cfg
  end.

(** The body of [Worker._execute_job] up to its [finally] clause: the
    job object as it is handed to [save_job], and the text of the
    exception that leaves the method, if one does.  An [OverflowError]
    raised by [_handle_job_failure] inside the [try] block is caught by
    [except Exception], whose handler calls [_handle_job_failure] again
    with the text of the exception; raised inside a handler it leaves
    the method.  The second call reads the clock again; the model
    takes the two readings to be the same instant [now]. *)
Definition try_block (cfg : Config) (now : Z) (out : run_outcome)
    (job : Job) : Job * option string :=
  let job := set_attempts (attempts job + 1) job in
  match out with
  | Returned returncode _ stderr =>
      if returncode =? 0 then
        (set_error_message None (set_state JobState.COMPLETED job), None)
      else
        let error_msg :=
          if String.eqb stderr EmptyString
          then "Exit code: " +:+ str_of_int returncode
          else strip stderr in
        match _handle_job_failure cfg now job error_msg with
        | (job, Some text) => _handle_job_failure cfg now job text
        | (job, None) => (job, None)
        end
  | TimeoutExpired =>
      let error_msg :=
        "Job timed out after " +:+ str_of_int (timeout_used cfg job)
          +:+ " seconds" in
      _handle_job_failure cfg now job error_msg
  | Raised text => _handle_job_failure cfg now job text
  end.

Definition classify (cfg : Config) (now : Z) (out : run_outcome)
    (job : Job) : Job :=
  fst (try_block cfg now out job).

(** The exception that ends the worker's loop after the attempt. *)
Definition escaping (cfg : Config) (now : Z) (out : run_outcome)
    (job : Job) : option string :=
  snd (try_block cfg now out job).

(** [Worker._execute_job]: the attempt, then the [finally] clause
    ([save_job] at instant [now_save], [release_job]). *)
Definition _execute_job (cfg : Config) (now now_save : Z)
    (out : run_outcome) (job : Job) (db : Storage) : Job * Storage :=
  let job := classify cfg now out job in
  let '(_, job, db) := save_job now_save job db in
  (job, release_job (id job) db).

(** The recovery statement at the top of [Worker.start]:
    UPDATE jobs SET state='failed', locked_by=NULL, locked_at=NULL
    WHERE state='processing'. *)
Definition recover_stuck (db : Storage) : Storage :=
  with_jobs
    (List.map
       (fun row =>
          if String.eqb (state row) JobState.PROCESSING
          then set_lock None None (set_state JobState.FAILED row)
          else row)
       (jobs db))
    db.

End Worker.

(** ** cli.py *)

(** What a command leaves behind: the exit status ([0] when the function
    returns), the last line written to stderr, the database. *)
Record cli_result := mkResult {
  exit_code : Z;
  err : option string;
  db_after : Storage
}.

Definition priority_map (label : string) : Z :=
  if String.eqb label "high" then 1
  else if String.eqb label "medium" then 2
  else if String.eqb label "low" then 3
  else 2.

(** The defaults that [enqueue] writes into the decoded JSON object:
    [max_retries] from the configuration, [priority] and [timeout] from
    the command-line options or, without them, 2 and [None]. *)
Definition fill_defaults (cfg : Config) (opt_priority : option string)
    (opt_timeout : option Z) (job_data : gmap string pyval)
    : gmap string pyval :=
  let job_data :=
    match job_data !! "max_retries" with
    | None => <["max_retries" := PInt (cfg_max_retries cfg)]> job_data
    | Some _ => job_data
    end in
  let job_data :=
    match opt_priority with
    | Some label => <["priority" := PInt (priority_map label)]> job_data
    | None =>
        match job_data !! "priority" with
        | None => <["priority" := PInt 2]> job_data
        | Some _ => job_data
        end
    end in
  match opt_timeout with
  | Some t => <["timeout" := PInt t]> job_data
  | None =>
      match job_data !! "timeout" with
      | None => <["timeout" := PNone]> job_data
      | Some _ => job_data
      end
  end.

(** [enqueue] on the decoded JSON object [job_data]; [opt_priority] and
    [opt_timeout] are the two command-line options.  The job is built at
    instant [now] and saved at [now_save].  [None] is returned exactly
    when [from_dict] reports [Untyped]. *)
Definition enqueue (opt_priority : option string) (opt_timeout : option Z)
    (job_data : gmap string pyval) (now now_save : Z) (db : Storage)
    : option cli_result :=
  let '(cfg, db) := get_config db in
  let job_data := fill_defaults cfg opt_priority opt_timeout job_data in
  match from_dict job_data now with
  | Untyped _ => None
  | TypeError text => Some (mkResult 1 (Some ("Error: " +:+ text)) db)
  | Built job =>
      match get_job (id job) db with
      | Some _ =>
          Some (mkResult 1
                  (Some ("Error: Job with ID '" +:+ id job
                           +:+ "' already exists")) db)
      | None =>
          let '(saved, _, db') := save_job now_save job db in
          if saved then Some (mkResult 0 None db')
          else Some (mkResult 1 (Some "Error: Failed to enqueue job") db')
      end
  end.

(** [dlq retry JOB_ID [--reset-attempts]]. *)
Definition dlq_retry (job_id : string) (reset_attempts : bool) (now : Z)
    (db : Storage) : cli_result :=
  match get_job job_id db with
  | None =>
      mkResult 1 (Some ("Error: Job '" +:+ job_id +:+ "' not found")) db
  | Some job =>
      if negb (String.eqb (state job) JobState.DEAD) then
        mkResult 1
          (Some ("Error: Job '" +:+ job_id
                   +:+ "' is not in DLQ (current state: " +:+ state job
                   +:+ ")")) db
      else
        let job := set_state JobState.PENDING job in
        let job := set_error_message None job in
        let job := set_next_retry_at None job in
        let job := if reset_attempts then set_attempts 0 job else job in
        let '(saved, _, db') := save_job now job db in
        if saved then mkResult 0 None db'
        else mkResult 1 (Some "Error: Failed to retry job") db'
  end.

(** The deletion loop shared by [clear] and [dlq clear]. *)
Definition delete_all (victims : list Job) (db : Storage) : Storage :=
  fold_left (fun db job => snd (delete_job (id job) db)) victims db.

Definition dlq_clear (db : Storage) : Storage :=
  delete_all (get_jobs_by_state JobState.DEAD db) db.

(** [str.lower()] on the letters A..Z.  The other characters are left
    as they are: none of them lowers to a text made of the letters of
    the five state names. *)
Definition lower_ascii (c : ascii) : ascii :=
  let n := N_of_ascii c in
  if ((65 <=? n) && (n <=? 90))%N then ascii_of_N (n + 32) else c.

Fixpoint lower (s : string) : string :=
  match s with
  | String c r => String (lower_ascii c) (lower r)
  | EmptyString => EmptyString
  end.

Definition valid_states : list string :=
  [ JobState.PENDING; JobState.PROCESSING; JobState.COMPLETED;
    JobState.FAILED; JobState.DEAD ].

(** [clear [--state STATE]], once confirmed: what it leaves in the
    database.  An empty [STATE] counts as no option ([if state:]); a
    [STATE] that is not one of the five states, lower-cased, ends the
    command with status 1 before anything is deleted. *)
Definition clear_jobs (st : option string) (db : Storage) : Storage :=
  match st with
  | Some s =>
      if String.eqb s EmptyString then
        delete_all (List.map job_of_row (jobs db)) db
      else
        let s := lower s in
        if existsb (String.eqb s) valid_states then
          delete_all (get_jobs_by_state s db) db
        else db
  | None => delete_all (List.map job_of_row (jobs db)) db
  end.

(** ** The queue as a transition system

    The database together with what the worker processes hold in memory:
    [current_job] and the configuration read at the top of the loop
    iteration that acquired it. *)

Record System := mkSystem {
  db : Storage;
  in_flight : list (string * (Config * Job))
}.

Definition initial : System := mkSystem empty_storage [].

Inductive event :=
| Enqueue (opt_priority : option string) (opt_timeout : option Z)
    (job_data : gmap string pyval) (now now_save : Z)
| WorkerStart
| Poll (worker_id : string) (now db_now : Z)
| Attempt (worker_id : string) (out : run_outcome) (now now_save : Z)
| Unwind (worker_id : string)
| Killed (worker_id : string)
| DlqRetry (job_id : string) (reset_attempts : bool) (now : Z)
| DlqClear
| Clear (st : option string)
| ConfigSet (cfg : Config).

Definition held_by (worker_id : string) (entry : string * (Config * Job))
    : bool :=
  String.eqb (fst entry) worker_id.

Definition drop_worker (worker_id : string)
    (l : list (string * (Config * Job))) : list (string * (Config * Job)) :=
  List.filter (fun entry => negb (held_by worker_id entry)) l.

(** One transition.  [None]: the event cannot happen in this state (a
    worker without a current job cannot finish one) or the enqueued
    dictionary is outside the typed model.
    - [Poll]: one iteration of the worker loop up to [acquire_job];
    - [Attempt]: [_execute_job] on the worker's current job; when an
      exception leaves [_execute_job], [current_job] stays set until the
      [finally] clause of [Worker.start] runs;
    - [Unwind]: the [finally] clause of [Worker.start] with a job held;
    - [Killed]: the process dies, nothing is written. *)
Definition step (e : event) (s : System) : option System :=
  match e with
  | Enqueue opt_priority opt_timeout job_data now now_save =>
      match enqueue opt_priority opt_timeout job_data now now_save (db s) with
      | Some r => Some (mkSystem (db_after r) (in_flight s))
      | None => None
      end
  | WorkerStart => Some (mkSystem (Worker.recover_stuck (db s)) (in_flight s))
  | Poll worker_id now db_now =>
      let '(cfg, db1) := get_config (db s) in
      match acquire_job worker_id now db_now db1 with
      | (Some job, db2) =>
          Some (mkSystem db2 ((worker_id, (cfg, job)) :: in_flight s))
      | (None, db2) => Some (mkSystem db2 (in_flight s))
      end
  | Attempt worker_id out now now_save =>
      match List.find (held_by worker_id) (in_flight s) with
      | Some (_, (cfg, job)) =>
          Some (mkSystem
                  (snd (Worker._execute_job cfg now now_save out job (db s)))
                  (match Worker.escaping cfg now out job with
                   | Some _ => in_flight s
                   | None => drop_worker worker_id (in_flight s)
                   end))
      | None => None
      end
  | Unwind worker_id =>
      match List.find (held_by worker_id) (in_flight s) with
      | Some (_, (_, job)) =>
          Some (mkSystem (release_job (id job) (db s))
                  (drop_worker worker_id (in_flight s)))
      | None => None
      end
  | Killed worker_id =>
      Some (mkSystem (db s) (drop_worker worker_id (in_flight s)))
  | DlqRetry job_id reset_attempts now =>
      Some (mkSystem (db_after (dlq_retry job_id reset_attempts now (db s)))
              (in_flight s))
  | DlqClear => Some (mkSystem (dlq_clear (db s)) (in_flight s))
  | Clear st => Some (mkSystem (clear_jobs st (db s)) (in_flight s))
  | ConfigSet cfg => Some (mkSystem (save_config cfg (db s)) (in_flight s))
  end.

Fixpoint run (evs : list event) (s : System) : option System :=
  match evs with
  | [] => Some s
  | e :: rest =>
      match step e s with
      | Some s' => run rest s'
      | None => None
      end
  end.

(** A stored job is reachable when some history from the empty database
    leaves it in the [jobs] table. *)
Definition reachable_job (row : Job) : Prop :=
  exists evs s, run evs initial = Some s /\ In row (jobs (db s)).

(** ** Vocabulary of the statements *)





(** An attempt that did not end with exit code 0. *)
Definition failed_attempt (out : run_outcome) : Prop :=
  match out with
  | Returned returncode _ _ => returncode <> 0
  | TimeoutExpired => True
  | Raised _ => True
  end.

(** Equality of two jobs in every field except [updated_at]. *)
Definition eq_modulo_updated_at (a b : Job) : Prop :=
  set_updated_at EmptyString a = set_updated_at EmptyString b.

(** The JSON value of a key as the constructor reads it. *)
Definition given_str (data : gmap string pyval) (k dflt : string) : string :=
  match data !! k with
  | Some (PStr s) => s
  | _ => dflt
  end.

Definition given_int (data : gmap string pyval) (k : string) (dflt : Z) : Z :=
  match data !! k with
  | Some (PInt n) => n
  | _ => dflt
  end.

(** A dead job has used up its retries. *)
Definition dead_bound (row : Job) : Prop :=
  state row = JobState.DEAD -> attempts row >= max_retries row.

(** The JSON object of an [enqueue] names the state [dead]. *)
Definition names_dead (job_data : gmap string pyval) : bool :=
  match job_data !! "state" with
  | Some (PStr s) => String.eqb s JobState.DEAD
  | _ => false
  end.

(** An event other than an [enqueue] whose JSON object names the state
    [dead]. *)
Definition ordinary (e : event) : bool :=
  match e with
  | Enqueue _ _ job_data _ _ => negb (names_dead job_data)
  | _ => true
  end.

(** Every stored job respects the bound. *)
Definition store_ok (db : Storage) : Prop := Forall dead_bound (jobs db).

(** ** Histories used as test data *)

Module Samples.

Definition t0 : Z := 1793786400250000.

Definition j1_json : gmap string pyval :=
  {[ "id" := PStr "j1"; "command" := PStr "true" ]}.

Definition after_enqueue : Storage :=
  match enqueue None None j1_json t0 t0 empty_storage with
  | Some r => db_after r
  | None => empty_storage
  end.

(** U+00A0 (no-break space) and U+2003 (em space) in UTF-8. *)
Definition nbsp : string :=
  String (ascii_of_nat 194) (String (ascii_of_nat 160) EmptyString).

Definition emsp : string :=
  String (ascii_of_nat 226)
    (String (ascii_of_nat 128) (String (ascii_of_nat 131) EmptyString)).

End Samples.

Module Scenario.

Definition t0 := Samples.t0.
Definition second : Z := 1000000.

Definition j2_json : gmap string pyval :=
  {[ "id" := PStr "j2"; "command" := PStr "test -f /tmp/flag" ]}.

(** "Retry then success": one failed attempt, then exit code 0. *)
Definition retry_then_success : list event :=
  [ Enqueue None None j2_json t0 t0;
    Poll "worker-1" (t0 + 1 * second) (t0 + 1 * second);
    Attempt "worker-1" (Returned 1 "" "") (t0 + 2 * second) (t0 + 2 * second);
    Poll "worker-1" (t0 + 5 * second) (t0 + 5 * second);
    Attempt "worker-1" (Returned 0 "" "") (t0 + 6 * second) (t0 + 6 * second) ].

End Scenario.

Module Ties.

Definition stamp : pyval := PStr "2026-11-04T09:00:00Z".

Definition job_b : gmap string pyval :=
  {[ "id" := PStr "b"; "command" := PStr "echo b"; "created_at" := stamp ]}.

Definition job_a : gmap string pyval :=
  {[ "id" := PStr "a"; "command" := PStr "echo a"; "created_at" := stamp ]}.

Definition t0 := Samples.t0.

(** [b] is enqueued first, then [a], with the same [created_at]. *)
Definition history : list event :=
  [ Enqueue None None job_b t0 t0; Enqueue None None job_a (t0 + 1) (t0 + 1) ].

Definition store : Storage :=
  match run history initial with
  | Some s => db s
  | None => empty_storage
  end.

End Ties.

Module Backlog.

Definition t0 := Samples.t0.
Definition second : Z := 1000000.

Definition j2_json : gmap string pyval :=
  {[ "id" := PStr "j2"; "command" := PStr "test -f /tmp/flag" ]}.

Definition urgent_json : gmap string pyval :=
  {[ "id" := PStr "urgent"; "command" := PStr "true" ]}.

(** [j2] fails once and waits for its retry; a job of high priority is
    enqueued after it. *)
Definition history : list event :=
  [ Enqueue None None j2_json t0 t0;
    Poll "worker-1" (t0 + 1 * second) (t0 + 1 * second);
    Attempt "worker-1" (Returned 1 "" "") (t0 + 2 * second) (t0 + 2 * second);
    Enqueue (Some "high") None urgent_json (t0 + 3 * second)
      (t0 + 3 * second) ].

Definition store : Storage :=
  match run history initial with
  | Some s => db s
  | None => empty_storage
  end.

Definition later : Z := t0 + 10 * second.

End Backlog.

Module Overflow.

(** A backoff base of 10^12: the first retry would wait about 31688
    years. *)
Definition cfg : Config := mkConfig 3 1000000000000 300.

Definition j4 : Job :=
  mkJob "j4" "false" "processing" 0 3 None 2
    "2026-11-04T10:00:00.250000Z" "2026-11-04T10:00:01.250000Z"
    None None None None.

End Overflow.

Module Crash.

Definition t0 := Samples.t0.
Definition second : Z := 1000000.

Definition j7_json : gmap string pyval :=
  {[ "id" := PStr "j7"; "command" := PStr "sleep 60" ]}.

(** [worker-1] acquires [j7] one second after the enqueue and is
    killed; no worker has started since. *)
Definition history : list event :=
  [ Enqueue None None j7_json t0 t0;
    Poll "worker-1" (t0 + 1 * second) (t0 + 1 * second);
    Killed "worker-1" ].

Definition store : Storage :=
  match run history initial with
  | Some s => db s
  | None => empty_storage
  end.

Definition next_day : Z := t0 + 86400 * second.

End Crash.

Module Forged.

Definition job_json : gmap string pyval :=
  {[ "id" := PStr "x"; "command" := PStr "true";
     "state" := PStr "dead"; "attempts" := PInt 7 ]}.

Definition dead_on_arrival : gmap string pyval :=
  {[ "id" := PStr "y"; "command" := PStr "true"; "state" := PStr "dead" ]}.

Definition t0 := Samples.t0.

End Forged.

Module Exhausted.

Definition t0 := Samples.t0.
Definition second : Z := 1000000.

Definition j5_json : gmap string pyval :=
  {[ "id" := PStr "j5"; "command" := PStr "sleep 10";
     "timeout" := PInt 1; "max_retries" := PInt 0 ]}.

(** A job without retries times out on its first attempt. *)
Definition history : list event :=
  [ Enqueue None None j5_json t0 t0;
    Poll "worker-1" (t0 + 1 * second) (t0 + 1 * second);
    Attempt "worker-1" TimeoutExpired (t0 + 2 * second) (t0 + 2 * second) ].

Definition final : System :=
  match run history initial with
  | Some s => s
  | None => initial
  end.

End Exhausted.

(** ** The rest of the store, the executor and the commands *)

(** [Job.to_dict]: [asdict] of the dataclass, one key per field. *)
Definition py_opt_str (o : option string) : pyval :=
  match o with
  | Some s => PStr s
  | None => PNone
  end.

Definition py_opt_int (o : option Z) : pyval :=
  match o with
  | Some n => PInt n
  | None => PNone
  end.

Definition to_dict (j : Job) : gmap string pyval :=
  list_to_map
    [ ("id", PStr (id j)); ("command", PStr (command j));
      ("state", PStr (state j)); ("attempts", PInt (attempts j));
      ("max_retries", PInt (max_retries j));
      ("timeout", py_opt_int (timeout j)); ("priority", PInt (priority j));
      ("created_at", PStr (created_at j)); ("updated_at", PStr (updated_at j));
      ("next_retry_at", py_opt_str (next_retry_at j));
      ("error_message", py_opt_str (error_message j));
      ("locked_by", py_opt_str (locked_by j));
      ("locked_at", py_opt_str (locked_at j)) ].

(** The listing order [ORDER BY priority ASC, created_at DESC]. *)
Definition listing_le (a b : Job) : bool :=
  (priority a <? priority b)
  || ((priority a =? priority b) && String.leb (created_at b) (created_at a)).

(** [Storage.get_all_jobs]. *)
Definition get_all_jobs (db : Storage) : list Job :=
  List.map job_of_row (order_by listing_le (jobs db)).

(** The five states that [get_job_counts], [list] and [clear] name. *)
Definition all_states : list string :=
  [ JobState.PENDING; JobState.PROCESSING; JobState.COMPLETED;
    JobState.FAILED; JobState.DEAD ].

(** SELECT state, COUNT( * ) FROM jobs GROUP BY state, as the dictionary
    the comprehension builds from it. *)
Definition count_by_state (rows : list Job) : gmap string Z :=
  fold_right
    (fun row counts =>
       <[state row := default 0 (counts !! state row) + 1]> counts)
    ∅ rows.

(** [Storage.get_job_counts]: the five states that have no row get a
    zero entry. *)
Definition get_job_counts (db : Storage) : gmap string Z :=
  fold_left
    (fun counts st =>
       match counts !! st with
       | Some _ => counts
       | None => <[st := 0]> counts
       end)
    all_states (count_by_state (jobs db)).



(** The timeout handed to [subprocess.run] by [_execute_job]:
    [job.timeout if job.timeout is not None else self.config.job_timeout]. *)
Definition timeout_secs (cfg : Config) (job : Job) : Z :=
  match timeout job with
  | Some t => t
  | None => job_timeout cfg
  end.

(** The primary key of [jobs]. *)
Definition unique_ids (db : Storage) : Prop :=
  NoDup (List.map id (jobs db)).

(** Only a row in state [processing] holds a lock. *)
Definition lock_coherent (row : Job) : Prop :=
  state row <> JobState.PROCESSING ->
  locked_by row = None /\ locked_at row = None.

(** The number of rows in a state. *)
Definition rows_in_state (st : string) (rows : list Job) : Z :=
  Z.of_nat (length (List.filter (fun row => String.eqb (state row) st) rows)).

(** The JSON value of an optional integer key as the constructor reads
    it. *)
Definition given_opt_int (data : gmap string pyval) (k : string) : option Z :=
  match data !! k with
  | Some (PInt n) => Some n
  | _ => None
  end.

(** Every stored row respects [lock_coherent]. *)
Definition locks_coherent (db : Storage) : Prop :=
  Forall lock_coherent (jobs db).

(** * Properties *)

(** ** Evaluation of the embedding on samples *)

Example utc_stamp_ex :
  Clock.utc_stamp 1793786400250000 = "2026-11-04T10:00:00.250000Z".
Proof. reflexivity. Qed.

Example utc_stamp_whole_second :
  Clock.utc_stamp 1793786400000000 = "2026-11-04T10:00:00Z".
Proof. reflexivity. Qed.

Example sqlite_5_minutes_ago_ex :
  Clock.sqlite_5_minutes_ago 1793786400250000 = "2026-11-04 09:55:00".
Proof. reflexivity. Qed.

Example enqueue_j1 :
  jobs Samples.after_enqueue =
    [ mkJob "j1" "true" "pending" 0 3 None 2
        "2026-11-04T10:00:00.250000Z" "2026-11-04T10:00:00.250000Z"
        None None None None ].
Proof. vm_compute. reflexivity. Qed.

Example acquire_j1 :
  fst (acquire_job "worker-1" (Samples.t0 + 1) (Samples.t0 + 2)
         Samples.after_enqueue) =
    Some (mkJob "j1" "true" "processing" 0 3 None 2
            "2026-11-04T10:00:00.250000Z" "2026-11-04T10:00:00.250000Z"
            None None None None).
Proof. vm_compute. reflexivity. Qed.

(** ** The text order of SQLite *)

Section TextOrder.

Lemma ascii_compare_refl c : Ascii.compare c c = Eq.
Proof. unfold Ascii.compare. apply N.compare_refl. Qed.

Lemma string_compare_refl s : String.compare s s = Eq.
Proof.
  induction s as [|c s IH]; simpl; [reflexivity|].
  now rewrite ascii_compare_refl.
Qed.

Lemma string_leb_refl s : String.leb s s = true.
Proof. unfold String.leb. now rewrite string_compare_refl. Qed.

Lemma ascii_compare_trans c1 c2 c3 :
  Ascii.compare c1 c2 <> Gt -> Ascii.compare c2 c3 <> Gt ->
  Ascii.compare c1 c3 <> Gt
  /\ (Ascii.compare c1 c3 = Eq ->
      Ascii.compare c1 c2 = Eq /\ Ascii.compare c2 c3 = Eq).
Proof.
  unfold Ascii.compare.
  destruct (N.compare_spec (N_of_ascii c1) (N_of_ascii c2));
    destruct (N.compare_spec (N_of_ascii c2) (N_of_ascii c3));
    destruct (N.compare_spec (N_of_ascii c1) (N_of_ascii c3));
    intros; split; intros; try split; try congruence; lia.
Qed.

Lemma string_compare_trans s1 : forall s2 s3,
  String.compare s1 s2 <> Gt -> String.compare s2 s3 <> Gt ->
  String.compare s1 s3 <> Gt.
Proof.
  induction s1 as [|c1 s1 IH]; intros [|c2 s2] [|c3 s3]; simpl;
    try congruence.
  intros H12 H23.
  assert (A12 : Ascii.compare c1 c2 <> Gt)
    by (destruct (Ascii.compare c1 c2); congruence).
  assert (A23 : Ascii.compare c2 c3 <> Gt)
    by (destruct (Ascii.compare c2 c3); congruence).
  destruct (ascii_compare_trans c1 c2 c3 A12 A23) as [A13 E13].
  destruct (Ascii.compare c1 c3) eqn:C13; try congruence.
  destruct (E13 eq_refl) as [E12 E23].
  rewrite E12 in H12. rewrite E23 in H23. now apply (IH s2 s3).
Qed.

Lemma string_leb_trans s1 s2 s3 :
  String.leb s1 s2 = true -> String.leb s2 s3 = true ->
  String.leb s1 s3 = true.
Proof.
  unfold String.leb. intros H12 H23.
  assert (H : String.compare s1 s3 <> Gt).
  { apply (string_compare_trans s1 s2 s3).
    - destruct (String.compare s1 s2); congruence.
    - destruct (String.compare s2 s3); congruence. }
  destruct (String.compare s1 s3); congruence.
Qed.

Lemma string_leb_false s1 s2 :
  String.leb s1 s2 = false -> String.leb s2 s1 = true.
Proof.
  intros H. destruct (String.leb_total s1 s2) as [E|E]; congruence.
Qed.

End TextOrder.

(** ** The dispatch order is a total preorder *)

Section DispatchOrder.

Lemma dispatch_le_total a b :
  dispatch_le a b = false -> dispatch_le b a = true.
Proof.
  unfold dispatch_le. intros H.
  apply orb_false_iff in H as [Hlt H].
  apply Z.ltb_ge in Hlt.
  destruct (Z.eqb_spec (priority a) (priority b)) as [E|NE]; simpl in H.
  - apply string_leb_false in H. rewrite <- E, Z.eqb_refl, H.
    now rewrite orb_true_r.
  - assert (L : priority b < priority a) by lia.
    apply Z.ltb_lt in L. now rewrite L.
Qed.

Lemma dispatch_le_trans a b c :
  dispatch_le a b = true -> dispatch_le b c = true ->
  dispatch_le a c = true.
Proof.
  unfold dispatch_le. intros Hab Hbc.
  apply orb_true_iff in Hab. apply orb_true_iff in Hbc.
  apply orb_true_iff.
  destruct Hab as [Hab|Hab]; destruct Hbc as [Hbc|Hbc];
    try apply Z.ltb_lt in Hab; try apply Z.ltb_lt in Hbc;
    try (apply andb_true_iff in Hab as [Eab Lab]; apply Z.eqb_eq in Eab);
    try (apply andb_true_iff in Hbc as [Ebc Lbc]; apply Z.eqb_eq in Ebc).
  - left. apply Z.ltb_lt. lia.
  - left. apply Z.ltb_lt. lia.
  - left. apply Z.ltb_lt. lia.
  - right. apply andb_true_iff. split.
    + apply Z.eqb_eq. lia.
    + now apply (string_leb_trans _ (created_at b)).
Qed.

(** The head of the sorted rows: nothing before it in the list is as
    good, nothing after it is better. *)
Lemma head_insert_row le x l :
  head (insert_row le x l) =
    match head l with
    | None => Some x
    | Some y => if le x y then Some x else Some y
    end.
Proof. destruct l as [|y r]; simpl; [reflexivity|]. now destruct (le x y). Qed.

Lemma head_order_by l : forall m,
  head (order_by dispatch_le l) = Some m ->
  exists pre post,
    l = pre ++ m :: post
    /\ (forall o, In o pre -> dispatch_le o m = false)
    /\ (forall o, In o post -> dispatch_le m o = true).
Proof.
  induction l as [|x r IH]; intros m; simpl; [discriminate|].
  rewrite head_insert_row.
  destruct (head (order_by dispatch_le r)) as [y|] eqn:Hy.
  - destruct (IH y eq_refl) as (pre & post & -> & Hpre & Hpost).
    destruct (dispatch_le x y) eqn:Hxy; intros [= <-].
    + exists [], (pre ++ y :: post). split; [reflexivity|].
      split; [intros o []|].
      intros o Ho. apply in_app_or in Ho as [Ho|[<-|Ho]].
      * apply (dispatch_le_trans _ y); [assumption|].
        apply dispatch_le_total. now apply Hpre.
      * assumption.
      * apply (dispatch_le_trans _ y); [assumption|]. now apply Hpost.
    + exists (x :: pre), post. split; [reflexivity|].
      split; [|assumption].
      intros o [<-|Ho]; [assumption|now apply Hpre].
  - intros [= <-]. destruct r as [|z r'].
    + exists [], []. repeat split; intros o [].
    + simpl in Hy. rewrite head_insert_row in Hy.
      destruct (head (order_by dispatch_le r')) as [w|];
        [destruct (dispatch_le z w)|]; discriminate.
Qed.

Lemma head_order_by_none l :
  head (order_by dispatch_le l) = None -> l = [].
Proof.
  destruct l as [|x r]; [reflexivity|]. simpl. rewrite head_insert_row.
  destruct (head (order_by dispatch_le r)) as [y|];
    [destruct (dispatch_le x y)|]; discriminate.
Qed.

Lemma filter_split (f : Job -> bool) l : forall pre' m post',
  List.filter f l = pre' ++ m :: post' ->
  exists pre post,
    l = pre ++ m :: post
    /\ List.filter f pre = pre' /\ List.filter f post = post'.
Proof.
  induction l as [|x r IH]; intros pre' m post' H; simpl in H.
  - destruct pre'; discriminate.
  - destruct (f x) eqn:Fx.
    + destruct pre' as [|p pre'].
      * injection H as -> <-. exists [], r. now simpl.
      * injection H as -> H.
        destruct (IH _ _ _ H) as (pre & post & -> & <- & <-).
        exists (p :: pre), post. simpl. now rewrite Fx.
    + destruct (IH _ _ _ H) as (pre & post & -> & <- & <-).
      exists (x :: pre), post. simpl. now rewrite Fx.
Qed.

End DispatchOrder.

(** ** acquire_job *)

Section Acquire.

Variables (now stale_before : string).

Lemma scan_order_in rows row :
  In row (scan_order rows) <->
  In row rows
  /\ (String.eqb (state row) JobState.PENDING
      || String.eqb (state row) JobState.FAILED) = true.
Proof.
  unfold scan_order. rewrite in_app_iff, !filter_In, orb_true_iff. tauto.
Qed.

Lemma eligible_scanned row :
  eligible now stale_before row = true ->
  (String.eqb (state row) JobState.PENDING
   || String.eqb (state row) JobState.FAILED) = true.
Proof.
  unfold eligible. intros H. apply andb_true_iff in H as [H _].
  apply orb_true_iff in H as [H|H]; apply orb_true_iff; [now left|right].
  now apply andb_true_iff in H as [H _].
Qed.

Lemma dispatch_le_refl a : dispatch_le a a = true.
Proof.
  unfold dispatch_le. rewrite Z.eqb_refl, string_leb_refl.
  now rewrite orb_true_r.
Qed.

(** The candidate is an eligible row of the table, and no eligible row
    of the table comes before it in the dispatch order. *)
Lemma select_candidate_some rows m :
  select_candidate now stale_before rows = Some m ->
  In m rows
  /\ eligible now stale_before m = true
  /\ (forall o, In o rows -> eligible now stale_before o = true ->
                dispatch_le m o = true).
Proof.
  unfold select_candidate. intros H.
  destruct (head_order_by _ _ H) as (pre & post & Hf & Hpre & Hpost).
  assert (Hm : In m (List.filter (eligible now stale_before)
                       (scan_order rows)))
    by (rewrite Hf; apply in_or_app; right; now left).
  apply filter_In in Hm as [Hm Hel].
  apply scan_order_in in Hm as [Hm _].
  split; [assumption|]. split; [assumption|].
  intros o Ho Helo.
  assert (Hin : In o (List.filter (eligible now stale_before)
                        (scan_order rows))).
  { apply filter_In. split; [|assumption].
    apply scan_order_in. split; [assumption|now apply eligible_scanned]. }
  rewrite Hf in Hin. apply in_app_or in Hin as [Hin|[<-|Hin]].
  - apply dispatch_le_total. now apply Hpre.
  - apply dispatch_le_refl.
  - now apply Hpost.
Qed.

Lemma select_candidate_none rows :
  select_candidate now stale_before rows = None ->
  forall row, In row rows -> eligible now stale_before row = false.
Proof.
  unfold select_candidate. intros H row Hrow.
  apply head_order_by_none in H.
  destruct (eligible now stale_before row) eqn:E; [|reflexivity].
  assert (Hin : In row (List.filter (eligible now stale_before)
                          (scan_order rows))).
  { apply filter_In. split; [|assumption].
    apply scan_order_in. split; [assumption|now apply eligible_scanned]. }
  rewrite H in Hin. destruct Hin.
Qed.

(** A row in state [processing] never passes the WHERE clause, whatever
    its lock columns hold. *)
Lemma processing_not_eligible row :
  state row = JobState.PROCESSING -> eligible now stale_before row = false.
Proof. unfold eligible. intros ->. reflexivity. Qed.

End Acquire.

Lemma acquire_job_unfold worker_id now db_now db job :
  fst (acquire_job worker_id now db_now db) = Some job ->
  exists row,
    select_candidate (Clock.utc_stamp now) (Clock.sqlite_5_minutes_ago db_now)
      (jobs db) = Some row
    /\ job = set_state JobState.PROCESSING (job_of_row row)
    /\ jobs (snd (acquire_job worker_id now db_now db)) =
         update_rows (id row)
           (fun r => set_state JobState.PROCESSING
                       (set_lock (Some worker_id)
                          (Some (Clock.utc_stamp now)) r))
           (jobs db).
Proof.
  unfold acquire_job.
  destruct (select_candidate _ _ (jobs db)) as [row|]; simpl; [|discriminate].
  intros [= <-]. exists row. repeat split.
Qed.


(** The order of the scan decides between rows equal under ORDER BY: a
    pending row is met before a failed row that precedes it in the
    table. *)
Example select_candidate_pending_first :
  let b := mkJob "b" "echo b" "failed" 1 3 None 2 "2026-11-04T09:00:00Z"
             "2026-11-04T09:00:05Z" None (Some "Exit code: 1") None None in
  let a := mkJob "a" "echo a" "pending" 0 3 None 2 "2026-11-04T09:00:00Z"
             "2026-11-04T09:00:00Z" None None None None in
  select_candidate "2026-11-04T10:00:00.250000Z" "2026-11-04 09:55:00" [b; a]
    = Some a.
Proof. vm_compute. reflexivity. Qed.

Lemma instant_of_sound s t : Clock.instant_of s = Some t -> Clock.utc_stamp t = s.
Proof.
  unfold Clock.instant_of.
  match goal with
  | |- context [String.eqb ?x s] => destruct (String.eqb_spec x s) as [E|E]
  end; [|discriminate].
  intros [= <-]. exact E.
Qed.

Example instant_of_ex :
  Clock.instant_of "2026-11-04T10:00:00.250000Z" = Some 1793786400250000
  /\ Clock.instant_of "2026-11-04T10:00:00Z" = Some 1793786400000000
  /\ Clock.instant_of "2026-11-04 10:00:00" = None
  /\ Clock.instant_of "2026-13-04T10:00:00Z" = None.
Proof. vm_compute. repeat split. Qed.

Example backlog_acquire :
  fst (acquire_job "worker-2" Backlog.later Backlog.later Backlog.store)
  = Some (mkJob "urgent" "true" "processing" 0 3 None 1
            "2026-11-04T10:00:03.250000Z" "2026-11-04T10:00:03.250000Z"
            None None None None).
Proof. vm_compute. reflexivity. Qed.




Lemma update_rows_in job_id f rows row :
  In row rows -> has_id job_id row = true -> In (f row) (update_rows job_id f rows).
Proof.
  intros Hin Hid. unfold update_rows.
  apply in_map_iff. exists row. now rewrite Hid.
Qed.

Lemma has_id_refl row : has_id (id row) row = true.
Proof. apply String.eqb_refl. Qed.

(** C5, as worded, fails: the job handed to the first worker after an
    enqueue has [locked_by = None]. *)
Lemma acquire_job_returns_no_lock_fields :
  ~ (forall worker_id now db_now db job,
       fst (acquire_job worker_id now db_now db) = Some job ->
       locked_by job = Some worker_id
       /\ locked_at job = Some (Clock.utc_stamp now)
       /\ state job = JobState.PROCESSING).
Proof.
  intros H.
  destruct (H "worker-1" (Samples.t0 + 1) (Samples.t0 + 2)
              Samples.after_enqueue _ acquire_j1) as [Hby _].
  discriminate Hby.
Qed.

(** C5 (amended): when [acquire_job] finds a candidate, the returned
    [Job] has [state = processing] and both of its lock fields are [None];
    it is the stored row that holds [locked_by = worker_id],
    [locked_at = now] and [state = processing]. *)
Theorem acquire_job_returned_fields worker_id now db_now db job :
  fst (acquire_job worker_id now db_now db) = Some job ->
  state job = JobState.PROCESSING
  /\ locked_by job = None
  /\ locked_at job = None
  /\ exists row,
       In row (jobs (snd (acquire_job worker_id now db_now db)))
       /\ id row = id job
       /\ state row = JobState.PROCESSING
       /\ locked_by row = Some worker_id
       /\ locked_at row = Some (Clock.utc_stamp now).
Proof.
  intros Hacq.
  destruct (acquire_job_unfold _ _ _ _ _ Hacq) as (row & Hsel & -> & Hdb).
  repeat split.
  destruct (select_candidate_some _ _ _ _ Hsel) as (Hin & _).
  eexists. split.
  - rewrite Hdb. apply update_rows_in; [exact Hin|apply has_id_refl].
  - repeat split.
Qed.

Lemma acquire_job_returned_fields_witness :
  let job :=
    mkJob "j1" "true" "processing" 0 3 None 2
      "2026-11-04T10:00:00.250000Z" "2026-11-04T10:00:00.250000Z"
      None None None None in
  let result :=
    acquire_job "worker-1" (Samples.t0 + 1) (Samples.t0 + 2)
      Samples.after_enqueue in
  fst result = Some job
  /\ state job = JobState.PROCESSING
  /\ locked_by job = None
  /\ locked_at job = None
  /\ exists row,
       In row (jobs (snd result))
       /\ id row = id job
       /\ state row = JobState.PROCESSING
       /\ locked_by row = Some "worker-1"
       /\ locked_at row = Some (Clock.utc_stamp (Samples.t0 + 1)).
Proof.
  split; [exact acquire_j1|].
  apply (acquire_job_returned_fields "worker-1" (Samples.t0 + 1)
           (Samples.t0 + 2) Samples.after_enqueue).
  exact acquire_j1.
Defined.

(** C4 at the failing input: the job left in [processing] by the dead
    worker holds a lock that is a day old, and [acquire_job] still finds
    no candidate and leaves the database as it is. *)
Theorem stale_processing_job_is_not_reacquired :
  jobs Crash.store =
    [ mkJob "j7" "sleep 60" "processing" 0 3 None 2
        "2026-11-04T10:00:00.250000Z" "2026-11-04T10:00:00.250000Z"
        None None (Some "worker-1") (Some "2026-11-04T10:00:01.250000Z") ]
  /\ Clock.sqlite_5_minutes_ago Crash.next_day = "2026-11-05 09:55:00"
  /\ acquire_job "worker-2" Crash.next_day Crash.next_day Crash.store
     = (None, Crash.store).
Proof. vm_compute. repeat split. Qed.

(** The same holds for every database: the row behind an acquired job was
    not in [processing]. *)
Lemma acquire_job_skips_processing worker_id now db_now db job :
  fst (acquire_job worker_id now db_now db) = Some job ->
  exists row,
    In row (jobs db) /\ id row = id job /\ state row <> JobState.PROCESSING.
Proof.
  intros Hacq.
  destruct (acquire_job_unfold _ _ _ _ _ Hacq) as (row & Hsel & -> & _).
  destruct (select_candidate_some _ _ _ _ Hsel) as (Hin & Hel & _).
  exists row. split; [exact Hin|].
  split; [reflexivity|].
  intros Hst. now rewrite processing_not_eligible in Hel.
Qed.

(** The stale-lock test compares an ISO text (["...T..."]) with SQLite's
    ["... ..."] text: within one calendar day a lock is never stale, here
    one hour after it was taken. *)
Example lock_one_hour_old_is_not_stale :
  lock_free (Clock.sqlite_5_minutes_ago (Samples.t0 + 3600 * 1000000))
    (mkJob "j" "c" "pending" 0 3 None 2 "" "" None None
       (Some "worker-1") (Some (Clock.utc_stamp Samples.t0))) = false.
Proof. vm_compute. reflexivity. Qed.

(** ** save_job and get_job *)

Section SaveGet.

Lemma has_id_eq job_id row : has_id job_id row = true -> id row = job_id.
Proof. apply String.eqb_eq. Qed.

Lemma find_delete_rows job_id rows :
  List.find (has_id job_id) (delete_rows job_id rows) = None.
Proof.
  induction rows as [|row rows IH]; simpl; [reflexivity|].
  destruct (has_id job_id row) eqn:E; simpl; [assumption|].
  now rewrite E.
Qed.

Lemma find_app_none (f : Job -> bool) l1 l2 :
  List.find f l1 = None -> List.find f (l1 ++ l2) = List.find f l2.
Proof.
  induction l1 as [|x l1 IH]; simpl; [reflexivity|].
  destruct (f x); [discriminate|assumption].
Qed.

(** What [get_job] reads right after [save_job]: the saved job, its
    [updated_at] set, the lock fields [None]. *)
Lemma get_job_save_job now job db :
  get_job (id job) (snd (save_job now job db)) =
    Some (set_lock None None (set_updated_at (Clock.utc_stamp now) job)).
Proof.
  unfold get_job, save_job. simpl.
  rewrite find_app_none by apply find_delete_rows.
  simpl. unfold has_id at 1. simpl. now rewrite String.eqb_refl.
Qed.

Lemma get_job_update_lock job_id k by_ at_ rows :
  option_map job_of_row
    (List.find (has_id job_id) (update_rows k (set_lock by_ at_) rows)) =
  option_map job_of_row (List.find (has_id job_id) rows).
Proof.
  induction rows as [|row rows IH]; simpl; [reflexivity|].
  destruct (has_id k row); simpl.
  - change (has_id job_id (set_lock by_ at_ row)) with (has_id job_id row).
    destruct (has_id job_id row); [reflexivity|assumption].
  - destruct (has_id job_id row); [reflexivity|assumption].
Qed.

(** [release_job] is invisible to [get_job]. *)
Lemma get_job_release_job job_id k db :
  get_job job_id (release_job k db) = get_job job_id db.
Proof. unfold get_job, release_job. simpl. apply get_job_update_lock. Qed.

Lemma get_job_some job_id db job :
  get_job job_id db = Some job ->
  id job = job_id /\ locked_by job = None /\ locked_at job = None.
Proof.
  unfold get_job. destruct (List.find _ _) as [row|] eqn:F; [|discriminate].
  intros [= <-]. apply find_some in F as [_ F]. apply has_id_eq in F.
  now repeat split.
Qed.

End SaveGet.

(** ** The executor *)

(** The retry time is computed without an exception when the clock
    reading and the retry time are instants a [datetime] can hold. *)
Lemma add_seconds_representable t s :
  Clock.representable t = true ->
  Clock.representable (t + s * 1000000) = true ->
  Clock.add_seconds t s = Clock.Value (t + s * 1000000).
Proof.
  unfold Clock.representable, Clock.datetime_min, Clock.datetime_max.
  intros Ht Hs.
  apply andb_true_iff in Ht as [Ht1 Ht2].
  apply andb_true_iff in Hs as [Hs1 Hs2].
  apply Z.leb_le in Ht1, Ht2, Hs1, Hs2.
  assert (Hd : -3652060 <= s / 86400 <= 3652060)
    by (Z.div_mod_to_equations; lia).
  assert (E1 : (s / 86400 <? - 2 ^ 31) = false)
    by (apply Z.ltb_ge; change (- 2 ^ 31) with (-2147483648); lia).
  assert (E2 : (2 ^ 31 <=? s / 86400) = false)
    by (apply Z.leb_gt; change (2 ^ 31) with 2147483648; lia).
  assert (E3 : (s / 86400 <? -999999999) = false) by (apply Z.ltb_ge; lia).
  assert (E4 : (999999999 <? s / 86400) = false) by (apply Z.ltb_ge; lia).
  unfold Clock.add_seconds, Clock.timedelta.
  rewrite E1, E2, E3, E4. cbn [orb].
  unfold Clock.datetime_add, Clock.representable,
    Clock.datetime_min, Clock.datetime_max.
  apply Z.leb_le in Hs1, Hs2. now rewrite Hs1, Hs2.
Qed.

Lemma _handle_job_failure_dead cfg now job msg :
  attempts job >= max_retries job ->
  Worker._handle_job_failure cfg now job msg =
    (set_next_retry_at None
       (set_state JobState.DEAD (set_error_message (Some msg) job)), None).
Proof.
  intros H. unfold Worker._handle_job_failure. simpl.
  destruct (Z.geb_spec (attempts job) (max_retries job)); [reflexivity|lia].
Qed.

Lemma _handle_job_failure_retry cfg now job msg :
  attempts job < max_retries job ->
  Clock.representable now = true ->
  Clock.representable (now + backoff_base cfg ^ attempts job * 1000000)
    = true ->
  Worker._handle_job_failure cfg now job msg =
    (set_next_retry_at
       (Some (Clock.utc_stamp
                (now + backoff_base cfg ^ attempts job * 1000000)))
       (set_state JobState.FAILED (set_error_message (Some msg) job)),
     None).
Proof.
  intros H Hnow Hretry. unfold Worker._handle_job_failure. simpl.
  destruct (Z.geb_spec (attempts job) (max_retries job)); [lia|].
  now rewrite (add_seconds_representable _ _ Hnow Hretry).
Qed.

Lemma _handle_job_failure_in_range cfg now job msg :
  (attempts job < max_retries job ->
   Clock.representable now = true
   /\ Clock.representable (now + backoff_base cfg ^ attempts job * 1000000)
      = true) ->
  Worker._handle_job_failure cfg now job msg =
    (if attempts job >=? max_retries job then
       set_next_retry_at None
         (set_state JobState.DEAD (set_error_message (Some msg) job))
     else
       set_next_retry_at
         (Some (Clock.utc_stamp
                  (now + backoff_base cfg ^ attempts job * 1000000)))
         (set_state JobState.FAILED (set_error_message (Some msg) job)),
     None).
Proof.
  intros Hrange.
  destruct (Z.geb_spec (attempts job) (max_retries job)) as [Hge|Hlt].
  - apply _handle_job_failure_dead. lia.
  - destruct (Hrange Hlt). now apply _handle_job_failure_retry.
Qed.

(** Without an [OverflowError] the attempt is classified by one call of
    [_handle_job_failure], and no exception leaves the method. *)
Lemma classify_failed cfg now out job :
  failed_attempt out ->
  let n := attempts job + 1 in
  (n < max_retries job ->
   Clock.representable now = true
   /\ Clock.representable (now + backoff_base cfg ^ n * 1000000) = true) ->
  exists msg,
    Worker.classify cfg now out job =
      (if n >=? max_retries job then
         set_next_retry_at None
           (set_state JobState.DEAD
              (set_error_message (Some msg) (set_attempts n job)))
       else
         set_next_retry_at
           (Some (Clock.utc_stamp (now + backoff_base cfg ^ n * 1000000)))
           (set_state JobState.FAILED
              (set_error_message (Some msg) (set_attempts n job))))
    /\ Worker.escaping cfg now out job = None.
Proof.
  intros Hfail n Hrange.
  assert (Hcall := fun msg =>
            _handle_job_failure_in_range cfg now (set_attempts n job) msg
              Hrange).
  unfold Worker.classify, Worker.escaping, Worker.try_block. fold n.
  destruct out as [rc so se| |text]; cbn [failed_attempt] in Hfail.
  - destruct (Z.eqb_spec rc 0) as [->|_]; [now destruct Hfail|].
    rewrite Hcall. eexists. split; reflexivity.
  - rewrite Hcall. eexists. split; reflexivity.
  - rewrite Hcall. eexists. split; reflexivity.
Qed.

(** Every path through the [try] block and its handlers. *)
Ltac try_block_paths out :=
  unfold Worker.classify, Worker.escaping, Worker.try_block,
    Worker._handle_job_failure;
  destruct out as [?rc ?so ?se| |?text]; simpl;
  repeat match goal with
         | |- context [?a >=? ?b] => destruct (Z.geb_spec a b); simpl
         | |- context [if ?b then _ else _] => destruct b; simpl
         | |- context [match Clock.add_seconds ?t ?s with _ => _ end] =>
             destruct (Clock.add_seconds t s); simpl
         end.

(** What every path leaves on the job: the fields that identify it, one
    more attempt, and one of the three states that end an attempt. *)
Lemma classify_fields cfg now out job :
  let job' := Worker.classify cfg now out job in
  id job' = id job /\ command job' = command job
  /\ created_at job' = created_at job /\ max_retries job' = max_retries job
  /\ priority job' = priority job /\ timeout job' = timeout job
  /\ attempts job' = attempts job + 1
  /\ (state job' = JobState.COMPLETED \/ state job' = JobState.FAILED
      \/ state job' = JobState.DEAD).
Proof. try_block_paths out; repeat split; auto. Qed.

Lemma classify_id cfg now out job :
  id (Worker.classify cfg now out job) = id job.
Proof. apply classify_fields. Qed.

Lemma _execute_job_stored cfg now now_save out job db :
  get_job (id job) (snd (Worker._execute_job cfg now now_save out job db)) =
    Some (set_lock None None
            (set_updated_at (Clock.utc_stamp now_save)
               (Worker.classify cfg now out job))).
Proof.
  pose proof (classify_id cfg now out job) as Hid.
  unfold Worker._execute_job. simpl.
  rewrite get_job_release_job. rewrite <- Hid at 1. apply get_job_save_job.
Qed.

Example overflow_attempt :
  Worker.try_block Overflow.cfg Samples.t0 (Returned 1 "" "boom") Overflow.j4
  = (mkJob "j4" "false" "failed" 1 3 None 2
       "2026-11-04T10:00:00.250000Z" "2026-11-04T10:00:01.250000Z"
       None (Some "date value out of range") None None,
     Some "date value out of range").
Proof. vm_compute. reflexivity. Qed.

Example overflow_texts :
  Clock.add_seconds Samples.t0 (10 ^ 12)
    = Clock.OverflowError "date value out of range"
  /\ Clock.add_seconds Samples.t0 (10 ^ 14)
     = Clock.OverflowError "days=1157407407; must have magnitude <= 999999999"
  /\ Clock.add_seconds Samples.t0 (10 ^ 15)
     = Clock.OverflowError "Python int too large to convert to C int"
  /\ Clock.add_seconds Samples.t0 (- 10 ^ 14)
     = Clock.OverflowError
         "days=-1157407408; must have magnitude <= 999999999"
  /\ Clock.add_seconds Samples.t0 (2 ^ 37) = Clock.Value 139232739872250000
  /\ Clock.utc_stamp 139232739872250000 = "6382-02-10T01:04:32.250000Z"
  /\ Clock.utc_stamp Clock.datetime_max = "9999-12-31T23:59:59.999999Z"
  /\ Clock.utc_stamp Clock.datetime_min = "0001-01-01T00:00:00Z".
Proof. vm_compute. repeat split. Qed.

(** C2, as worded, fails: with a backoff base of 10^12 the retry time
    of the first failure lies beyond the year 9999.  Computing it
    raises [OverflowError]; the job is stored as [failed] with the
    retry time it had before, here none. *)
Lemma failed_attempt_retry_overflow :
  ~ (forall cfg now now_save out job db,
       failed_attempt out ->
       0 <= attempts job ->
       let n := attempts job + 1 in
       exists stored,
         get_job (id job)
           (snd (Worker._execute_job cfg now now_save out job db))
           = Some stored
         /\ attempts stored = n
         /\ (n >= max_retries job ->
             state stored = JobState.DEAD /\ next_retry_at stored = None)
         /\ (n < max_retries job ->
             state stored = JobState.FAILED
             /\ next_retry_at stored =
                  Some (Clock.utc_stamp
                          (now + backoff_base cfg ^ n * 1000000)))).
Proof.
  intros H.
  destruct (H Overflow.cfg Samples.t0 (Samples.t0 + 1) (Returned 1 "" "boom")
              Overflow.j4 empty_storage)
    as (stored & Hget & _ & _ & Hretry).
  - simpl. lia.
  - simpl. lia.
  - destruct Hretry as [_ Hnext]; [simpl; lia|].
    revert Hget Hnext. vm_compute. intros [= <-]. discriminate.
Qed.

(** C2 (amended): an attempt that does not succeed is persisted, with
    the incremented [attempts], as [dead] without a retry time when
    [attempts >= max_retries], and otherwise, when the retry time
    [now + backoff_base ^ attempts] seconds is an instant that a
    [datetime] can hold (up to the end of the year 9999), as [failed]
    with [next_retry_at] set to that time.  The statement is for jobs
    whose integers fit the INTEGER columns of the table. *)
Theorem failed_attempt_retry_rule cfg now now_save out job db :
  failed_attempt out ->
  0 <= attempts job ->
  let n := attempts job + 1 in
  storable (set_attempts n job) = true ->
  Clock.representable now = true ->
  (n < max_retries job ->
   Clock.representable (now + backoff_base cfg ^ n * 1000000) = true) ->
  exists stored,
    get_job (id job) (snd (Worker._execute_job cfg now now_save out job db))
      = Some stored
    /\ attempts stored = n
    /\ (n >= max_retries job ->
        state stored = JobState.DEAD /\ next_retry_at stored = None)
    /\ (n < max_retries job ->
        state stored = JobState.FAILED
        /\ next_retry_at stored =
             Some (Clock.utc_stamp (now + backoff_base cfg ^ n * 1000000))).
Proof.
  intros Hfail _ n _ Hnow Hretry.
  eexists. split; [apply _execute_job_stored|].
  destruct (classify_failed cfg now out job Hfail) as (msg & -> & _).
  { intros Hlt. split; [assumption|now apply Hretry]. }
  fold n.
  destruct (Z.geb_spec n (max_retries job)) as [Hge|Hlt]; simpl;
    repeat split; intros; try reflexivity; lia.
Qed.

Lemma failed_attempt_retry_rule_witness :
  let job := mkJob "j4" "false" "processing" 0 3 None 2 "c" "u"
               None None None None in
  failed_attempt (Returned 1 "" "boom")
  /\ 0 <= attempts job
  /\ storable (set_attempts 1 job) = true
  /\ Clock.representable Samples.t0 = true
  /\ (1 < 3 -> Clock.representable (Samples.t0 + 2 ^ 1 * 1000000) = true)
  /\ exists stored,
       get_job "j4"
         (snd (Worker._execute_job default_config Samples.t0 Samples.t0
                 (Returned 1 "" "boom") job empty_storage)) = Some stored
       /\ attempts stored = 1
       /\ (1 >= 3 -> state stored = JobState.DEAD
                     /\ next_retry_at stored = None)
       /\ (1 < 3 ->
           state stored = JobState.FAILED
           /\ next_retry_at stored = Some "2026-11-04T10:00:02.250000Z").
Proof.
  split; [simpl; lia|]. split; [simpl; lia|].
  split; [reflexivity|]. split; [reflexivity|].
  split; [intros _; reflexivity|].
  apply (failed_attempt_retry_rule default_config Samples.t0 Samples.t0
           (Returned 1 "" "boom")
           (mkJob "j4" "false" "processing" 0 3 None 2 "c" "u"
              None None None None) empty_storage);
    [simpl; lia|simpl; lia|reflexivity|reflexivity|intros _; reflexivity].
Defined.

Example first_retry_waits_backoff_base :
  option_map next_retry_at
    (get_job "j4"
       (snd (Worker._execute_job default_config Samples.t0 Samples.t0
               (Returned 1 "" "boom")
               (mkJob "j4" "false" "processing" 0 3 None 2 "c" "u"
                  None None None None) empty_storage)))
  = Some (Some "2026-11-04T10:00:02.250000Z").
Proof. vm_compute. reflexivity. Qed.

Example second_failure_of_two_is_dead :
  option_map (fun j => (state j, attempts j, next_retry_at j))
    (get_job "j4"
       (snd (Worker._execute_job default_config Samples.t0 Samples.t0
               TimeoutExpired
               (mkJob "j4" "false" "processing" 1 2 (Some 1) 2 "c" "u"
                  (Some "2026-11-04T09:59:00Z") None None None)
               empty_storage)))
  = Some ("dead", 2, None).
Proof. vm_compute. reflexivity. Qed.

(** The success branch assigns [state] and [error_message] and nothing
    else: the retry time of an earlier failure stays on the job. *)
Lemma classify_success cfg now stdout stderr job :
  Worker.classify cfg now (Returned 0 stdout stderr) job =
    set_error_message None
      (set_state JobState.COMPLETED (set_attempts (attempts job + 1) job)).
Proof. reflexivity. Qed.

Lemma success_keeps_next_retry_at cfg now now_save stdout stderr job db :
  exists stored,
    get_job (id job)
      (snd (Worker._execute_job cfg now now_save (Returned 0 stdout stderr)
              job db)) = Some stored
    /\ state stored = JobState.COMPLETED
    /\ error_message stored = None
    /\ next_retry_at stored = next_retry_at job.
Proof.
  eexists. split; [apply _execute_job_stored|].
  rewrite classify_success. repeat split.
Qed.

(** C3 at the failing input, the "retry then success" scenario: the job
    fails once, is retried after its backoff and exits with code 0; it is
    stored as [completed] with the retry time of the first failure. *)
Theorem completed_job_keeps_next_retry_at :
  option_map (fun s => get_job "j2" (db s))
    (run Scenario.retry_then_success initial)
  = Some (Some (mkJob "j2" "test -f /tmp/flag" "completed" 2 3 None 2
                  "2026-11-04T10:00:00.250000Z" "2026-11-04T10:00:06.250000Z"
                  (Some "2026-11-04T10:00:04.250000Z") None None None)).
Proof. vm_compute. reflexivity. Qed.

(** ** get and put *)

(** C9: reading a stored job, saving what was read and reading again
    gives the first reading in every field except [updated_at]. *)
Theorem put_get_roundtrip job_id now db job :
  get_job job_id db = Some job ->
  let '(saved, _, db') := save_job now job db in
  saved = true
  /\ exists again,
       get_job job_id db' = Some again
       /\ eq_modulo_updated_at again job
       /\ updated_at again = Clock.utc_stamp now.
Proof.
  intros Hget.
  destruct (get_job_some _ _ _ Hget) as (<- & Hby & Hat).
  pose proof (get_job_save_job now job db) as Hsave.
  unfold save_job in *. simpl in *. split; [reflexivity|].
  eexists. split; [exact Hsave|].
  split; [|reflexivity].
  unfold eq_modulo_updated_at. destruct job; simpl in *. now subst.
Qed.

Lemma put_get_roundtrip_witness :
  let job :=
    mkJob "j1" "true" "pending" 0 3 None 2
      "2026-11-04T10:00:00.250000Z" "2026-11-04T10:00:00.250000Z"
      None None None None in
  get_job "j1" Samples.after_enqueue = Some job
  /\ let '(saved, _, db') :=
       save_job (Samples.t0 + 5) job Samples.after_enqueue in
     saved = true
     /\ exists again,
          get_job "j1" db' = Some again
          /\ eq_modulo_updated_at again job
          /\ updated_at again = Clock.utc_stamp (Samples.t0 + 5).
Proof.
  split; [vm_compute; reflexivity|].
  apply (put_get_roundtrip "j1" (Samples.t0 + 5) Samples.after_enqueue).
  vm_compute. reflexivity.
Defined.

(** C10: the job read by [get_job] never shows a lock, whatever the lock
    columns of its row hold. *)
Theorem get_job_hides_lock job_id db job :
  get_job job_id db = Some job ->
  locked_by job = None /\ locked_at job = None.
Proof. intros H. now destruct (get_job_some _ _ _ H) as (_ & ? & ?). Qed.

Lemma get_job_hides_lock_witness :
  let job :=
    mkJob "j7" "sleep 60" "processing" 0 3 None 2
      "2026-11-04T10:00:00.250000Z" "2026-11-04T10:00:00.250000Z"
      None None None None in
  get_job "j7" Crash.store = Some job
  /\ locked_by job = None /\ locked_at job = None.
Proof.
  split; [vm_compute; reflexivity|].
  apply (get_job_hides_lock "j7" Crash.store). vm_compute. reflexivity.
Defined.

(** ** dlq retry *)

Lemma find_unique_id rows row :
  NoDup (List.map id rows) -> In row rows ->
  List.find (has_id (id row)) rows = Some row.
Proof.
  induction rows as [|r rows IH]; simpl; intros Hnd Hin; [destruct Hin|].
  apply NoDup_cons in Hnd as [Hr Hnd].
  destruct (has_id (id row) r) eqn:Hid.
  - destruct Hin as [->|Hin]; [reflexivity|].
    apply has_id_eq in Hid. exfalso. apply Hr. rewrite Hid.
    apply list_elem_of_In. now apply in_map.
  - destruct Hin as [->|Hin]; [now rewrite has_id_refl in Hid|].
    now apply IH.
Qed.

Lemma get_job_none i db :
  get_job i db = None -> List.find (has_id i) (jobs db) = None.
Proof. unfold get_job. now destruct (List.find _ _). Qed.

Lemma get_job_row job_id db job :
  get_job job_id db = Some job ->
  exists row,
    List.find (has_id job_id) (jobs db) = Some row /\ job = job_of_row row.
Proof.
  unfold get_job. destruct (List.find _ _) as [row|]; [|discriminate].
  intros [= <-]. now exists row.
Qed.

(** With unique ids, the job that [get_job] reads is the one row of
    that [id]. *)
Lemma get_job_unique job_id db row :
  unique_ids db -> In row (jobs db) -> id row = job_id ->
  get_job job_id db = Some (job_of_row row).
Proof.
  intros Hu Hin <-. unfold get_job.
  now rewrite (find_unique_id _ _ Hu Hin).
Qed.

Lemma in_delete_rows job_id rows row :
  In row (delete_rows job_id rows) <-> In row rows /\ id row <> job_id.
Proof.
  unfold delete_rows. rewrite filter_In. unfold has_id.
  destruct (String.eqb_spec (id row) job_id); simpl; intuition congruence.
Qed.

Example dlq_retry_j5 :
  jobs (db Exhausted.final) =
    [ mkJob "j5" "sleep 10" "dead" 1 0 (Some 1) 2
        "2026-11-04T10:00:00.250000Z" "2026-11-04T10:00:02.250000Z"
        None (Some "Job timed out after 1 seconds") None None ]
  /\ (let r := dlq_retry "j5" true (Samples.t0 + 8) (db Exhausted.final) in
      exit_code r = 0
      /\ jobs (db_after r) =
           [ mkJob "j5" "sleep 10" "pending" 0 0 (Some 1) 2
               "2026-11-04T10:00:00.250000Z" "2026-11-04T10:00:00.250008Z"
               None None None None ])
  /\ (let r := dlq_retry "j5" false (Samples.t0 + 8) Samples.after_enqueue in
      exit_code r = 1
      /\ err r = Some "Error: Job 'j5' not found"
      /\ db_after r = Samples.after_enqueue)
  /\ (let r := dlq_retry "j1" false (Samples.t0 + 8) Samples.after_enqueue in
      exit_code r = 1
      /\ err r = Some "Error: Job 'j1' is not in DLQ (current state: pending)"
      /\ db_after r = Samples.after_enqueue).
Proof. vm_compute. repeat split. Qed.

(** C7: in a table with unique ids, [dlq retry] succeeds exactly when a
    row with the given [id] exists and is in state [dead]; otherwise it
    reports an error, exits with status 1 and leaves the database as it
    was.  On success the table holds exactly one row with that [id]: the
    dead job with [state = pending], no error message, no retry time,
    and [attempts] reset exactly when the flag is given; the rows of
    other ids are as they were. *)
Theorem dlq_retry_outcome job_id reset_attempts now db :
  unique_ids db ->
  let r := dlq_retry job_id reset_attempts now db in
  (exit_code r = 0 <->
   exists row,
     In row (jobs db) /\ id row = job_id /\ state row = JobState.DEAD)
  /\ (exit_code r <> 0 ->
      exit_code r = 1 /\ err r <> None /\ db_after r = db)
  /\ (forall row,
        In row (jobs db) -> id row = job_id -> state row = JobState.DEAD ->
        exists stored,
          In stored (jobs (db_after r))
          /\ (forall other,
                In other (jobs (db_after r)) -> id other = job_id ->
                other = stored)
          /\ (forall other,
                id other <> job_id ->
                (In other (jobs (db_after r)) <-> In other (jobs db)))
          /\ state stored = JobState.PENDING
          /\ error_message stored = None
          /\ next_retry_at stored = None
          /\ attempts stored = (if reset_attempts then 0 else attempts row)
          /\ id stored = id row /\ command stored = command row
          /\ max_retries stored = max_retries row
          /\ timeout stored = timeout row /\ priority stored = priority row
          /\ created_at stored = created_at row).
Proof.
  intros Hu r.
  assert (Hone : forall row,
             In row (jobs db) -> id row = job_id ->
             get_job job_id db = Some (job_of_row row))
    by (intros row; now apply get_job_unique).
  subst r. unfold dlq_retry.
  destruct (get_job job_id db) as [job|] eqn:Hget.
  - destruct (get_job_row _ _ _ Hget) as (row0 & Hfind & ->).
    apply find_some in Hfind as [Hin0 Hid0]. apply has_id_eq in Hid0.
    change (state (job_of_row row0)) with (state row0).
    destruct (String.eqb_spec (state row0) JobState.DEAD) as [Hdead|Hlive];
      cbn [negb].
    + split; [split; [intros _; now exists row0|reflexivity]|].
      split; [intros H; now destruct H|].
      intros row Hin Hid _.
      assert (E : job_of_row row = job_of_row row0)
        by (specialize (Hone row Hin Hid); congruence).
      unfold save_job. cbn [fst snd db_after jobs with_jobs].
      eexists. split; [apply in_or_app; right; left; reflexivity|].
      split; [|split].
      * intros other Hother Hoid.
        apply in_app_or in Hother as [Hother|[<-|[]]]; [|reflexivity].
        apply in_delete_rows in Hother as [_ Hne].
        exfalso. apply Hne. rewrite Hoid.
        now destruct reset_attempts.
      * intros other Hne. rewrite in_app_iff, in_delete_rows.
        assert (Hid' : id (if reset_attempts
                           then set_attempts 0
                                  (set_next_retry_at None
                                     (set_error_message None
                                        (set_state JobState.PENDING
                                           (job_of_row row0))))
                           else set_next_retry_at None
                                  (set_error_message None
                                     (set_state JobState.PENDING
                                        (job_of_row row0)))) = job_id)
          by now destruct reset_attempts.
        rewrite Hid'. split.
        -- intros [[H _]|[<-|[]]]; [assumption|].
           exfalso. apply Hne. now destruct reset_attempts.
        -- intros H. left. now split.
      * assert (Ea : attempts row = attempts row0)
          by (change (attempts (job_of_row row) = attempts (job_of_row row0));
              now rewrite E).
        assert (Eo : id row = id row0 /\ command row = command row0
                     /\ max_retries row = max_retries row0
                     /\ timeout row = timeout row0
                     /\ priority row = priority row0
                     /\ created_at row = created_at row0).
        { change (id (job_of_row row) = id (job_of_row row0)
                  /\ command (job_of_row row) = command (job_of_row row0)
                  /\ max_retries (job_of_row row)
                     = max_retries (job_of_row row0)
                  /\ timeout (job_of_row row) = timeout (job_of_row row0)
                  /\ priority (job_of_row row) = priority (job_of_row row0)
                  /\ created_at (job_of_row row)
                     = created_at (job_of_row row0)).
          rewrite E. repeat split. }
        destruct Eo as (E1 & E2 & E3 & E4 & E5 & E6).
        rewrite Ea, E1, E2, E3, E4, E5, E6.
        destruct reset_attempts; repeat split.
    + split; [split; [discriminate|]|].
      * intros (row & Hin & Hid & Hd).
        specialize (Hone row Hin Hid).
        assert (E : state (job_of_row row) = state (job_of_row row0))
          by congruence.
        simpl in E. congruence.
      * split; [intros _; repeat split; discriminate|].
        intros row Hin Hid Hd. specialize (Hone row Hin Hid).
        assert (E : state (job_of_row row) = state (job_of_row row0))
          by congruence.
        simpl in E. congruence.
  - cbn [exit_code err db_after].
    split; [split; [discriminate|]|].
    + intros (row & Hin & Hid & _). specialize (Hone row Hin Hid).
      congruence.
    + split; [intros _; repeat split; discriminate|].
      intros row Hin Hid _. specialize (Hone row Hin Hid). congruence.
Qed.

Lemma dlq_retry_outcome_witness :
  let db0 := db Exhausted.final in
  let r := dlq_retry "j5" true (Samples.t0 + 8) db0 in
  unique_ids db0
  /\ (exit_code r = 0 <->
      exists row,
        In row (jobs db0) /\ id row = "j5" /\ state row = JobState.DEAD)
  /\ (exit_code r <> 0 ->
      exit_code r = 1 /\ err r <> None /\ db_after r = db0)
  /\ (forall row,
        In row (jobs db0) -> id row = "j5" -> state row = JobState.DEAD ->
        exists stored,
          In stored (jobs (db_after r))
          /\ (forall other,
                In other (jobs (db_after r)) -> id other = "j5" ->
                other = stored)
          /\ (forall other,
                id other <> "j5" ->
                (In other (jobs (db_after r)) <-> In other (jobs db0)))
          /\ state stored = JobState.PENDING
          /\ error_message stored = None
          /\ next_retry_at stored = None
          /\ attempts stored = (if true then 0 else attempts row)
          /\ id stored = id row /\ command stored = command row
          /\ max_retries stored = max_retries row
          /\ timeout stored = timeout row /\ priority stored = priority row
          /\ created_at stored = created_at row).
Proof.
  assert (Hu : unique_ids (db Exhausted.final)).
  { unfold unique_ids. vm_compute. repeat constructor. intros H.
    inversion H. }
  split; [exact Hu|].
  exact (dlq_retry_outcome "j5" true (Samples.t0 + 8) (db Exhausted.final) Hu).
Defined.

(** ** enqueue *)

Section Enqueue.

Lemma bind_built {A B} (m : built A) (k : A -> built B) b :
  bind m k = Built b -> exists a, m = Built a /\ k a = Built b.
Proof. destruct m; simpl; intros H; try discriminate. eauto. Qed.

Lemma keyword_str data k dflt v :
  keyword data as_str k dflt = Built v -> v = given_str data k dflt.
Proof.
  unfold keyword, given_str.
  destruct (data !! k) as [[| |]|]; simpl; congruence.
Qed.

Lemma keyword_int data k dflt v :
  keyword data as_int k dflt = Built v -> v = given_int data k dflt.
Proof.
  unfold keyword, given_int.
  destruct (data !! k) as [[| |]|]; simpl; congruence.
Qed.

Lemma from_dict_built data now job :
  from_dict data now = Built job ->
  data !! "id" = Some (PStr (id job))
  /\ state job = given_str data "state" JobState.PENDING
  /\ attempts job = given_int data "attempts" 0
  /\ max_retries job = given_int data "max_retries" 3.
Proof.
  unfold from_dict. intros H.
  apply bind_built in H as ([v_id v_command] & Hreq & H).
  apply bind_built in H as (j_id & Hid & H).
  apply bind_built in H as (j_command & _ & H).
  apply bind_built in H as (j_state & Hstate & H).
  apply bind_built in H as (j_attempts & Hattempts & H).
  apply bind_built in H as (j_max & Hmax & H).
  repeat (apply bind_built in H as (? & _ & H)).
  injection H as <-. simpl.
  apply keyword_str in Hstate. apply keyword_int in Hattempts.
  apply keyword_int in Hmax.
  repeat split; try assumption.
  unfold required in Hreq.
  destruct (data !! "id") as [w|]; destruct (data !! "command");
    try discriminate.
  injection Hreq as -> _. simpl in Hid.
  destruct v_id; simpl in Hid; try discriminate. congruence.
Qed.

Lemma fill_defaults_other cfg opt_priority opt_timeout data k :
  k <> "max_retries" -> k <> "priority" -> k <> "timeout" ->
  fill_defaults cfg opt_priority opt_timeout data !! k = data !! k.
Proof.
  intros H1 H2 H3. unfold fill_defaults.
  repeat match goal with
         | |- context [match ?x with _ => _ end] => destruct x
         end;
    repeat (rewrite lookup_insert_ne by congruence); reflexivity.
Qed.

(** What a successful [enqueue] stored, read back by [get_job]. *)
Lemma enqueue_stored opt_priority opt_timeout data now now_save db r :
  enqueue opt_priority opt_timeout data now now_save db = Some r ->
  exit_code r = 0 ->
  exists job,
    from_dict
      (fill_defaults (fst (get_config db)) opt_priority opt_timeout data)
      now = Built job
    /\ get_job (id job) (snd (get_config db)) = None
    /\ jobs (db_after r) =
         delete_rows (id job) (jobs (snd (get_config db)))
           ++ [set_lock None None
                 (set_updated_at (Clock.utc_stamp now_save) job)]
    /\ get_job (id job) (db_after r) =
         Some (set_lock None None
                 (set_updated_at (Clock.utc_stamp now_save) job)).
Proof.
  unfold enqueue. destruct (get_config db) as [cfg db1]. simpl.
  destruct (from_dict _ now) as [job|text|key]; [|intros [= <-]|];
    try discriminate.
  destruct (get_job (id job) db1) eqn:Hex; [intros [= <-]; discriminate|].
  pose proof (get_job_save_job now_save job db1) as Hs.
  unfold save_job in *. simpl in *.
  intros [= <-] _. simpl. eauto.
Qed.

End Enqueue.

(** C8, as worded, fails: a JSON object that names [state] and [attempts]
    is stored with the values it names. *)
Lemma enqueue_takes_state_from_json :
  ~ (forall opt_priority opt_timeout job_data now now_save db r job_id,
       enqueue opt_priority opt_timeout job_data now now_save db = Some r ->
       exit_code r = 0 ->
       job_data !! "id" = Some (PStr job_id) ->
       exists stored,
         get_job job_id (db_after r) = Some stored
         /\ state stored = JobState.PENDING
         /\ attempts stored = 0).
Proof.
  intros H.
  destruct (enqueue None None Forged.job_json Forged.t0 Forged.t0
              empty_storage) as [r|] eqn:Hr; [|vm_compute in Hr; discriminate].
  destruct (H None None Forged.job_json Forged.t0 Forged.t0 empty_storage
              r "x" Hr) as (stored & Hget & Hst & _).
  - vm_compute in Hr. injection Hr as <-. reflexivity.
  - vm_compute. reflexivity.
  - vm_compute in Hr. injection Hr as <-.
    vm_compute in Hget. injection Hget as <-. discriminate Hst.
Qed.

(** C8 (amended): a job created through [enqueue] is stored with the
    [state] and the [attempts] that the JSON object names, and with
    [state = pending] and [attempts = 0] where it does not name them. *)
Theorem enqueue_initial_state opt_priority opt_timeout job_data now now_save
    db r job_id :
  enqueue opt_priority opt_timeout job_data now now_save db = Some r ->
  exit_code r = 0 ->
  job_data !! "id" = Some (PStr job_id) ->
  exists stored,
    get_job job_id (db_after r) = Some stored
    /\ state stored = given_str job_data "state" JobState.PENDING
    /\ attempts stored = given_int job_data "attempts" 0
    /\ (job_data !! "state" = None -> state stored = JobState.PENDING)
    /\ (job_data !! "attempts" = None -> attempts stored = 0).
Proof.
  intros Hr Hexit Hid.
  destruct (enqueue_stored _ _ _ _ _ _ _ Hr Hexit)
    as (job & Hbuilt & _ & _ & Hget).
  apply from_dict_built in Hbuilt as (Hjid & Hst & Hat & _).
  rewrite fill_defaults_other in Hjid by discriminate.
  rewrite Hid in Hjid. injection Hjid as Hjid.
  unfold given_str in Hst. unfold given_int in Hat.
  rewrite fill_defaults_other in Hst by discriminate.
  rewrite fill_defaults_other in Hat by discriminate.
  rewrite <- Hjid in Hget. eexists. split; [exact Hget|]. simpl.
  unfold given_str, given_int.
  repeat split; try assumption.
  - intros E. rewrite E in Hst. exact Hst.
  - intros E. rewrite E in Hat. exact Hat.
Qed.

Lemma enqueue_initial_state_witness :
  let r :=
    mkResult 0 None
      (mkStorage
         [ mkJob "j1" "true" "pending" 0 3 None 2
             "2026-11-04T10:00:00.250000Z" "2026-11-04T10:00:00.250000Z"
             None None None None ]
         (Some default_config)) in
  enqueue None None Samples.j1_json Samples.t0 Samples.t0 empty_storage
    = Some r
  /\ exit_code r = 0
  /\ Samples.j1_json !! "id" = Some (PStr "j1")
  /\ exists stored,
       get_job "j1" (db_after r) = Some stored
       /\ state stored = given_str Samples.j1_json "state" JobState.PENDING
       /\ attempts stored = given_int Samples.j1_json "attempts" 0
       /\ (Samples.j1_json !! "state" = None ->
           state stored = JobState.PENDING)
       /\ (Samples.j1_json !! "attempts" = None -> attempts stored = 0).
Proof.
  split; [vm_compute; reflexivity|].
  split; [reflexivity|].
  split; [vm_compute; reflexivity|].
  apply (enqueue_initial_state None None Samples.j1_json Samples.t0
           Samples.t0 empty_storage);
    vm_compute; reflexivity.
Defined.

(** ** The attempt bound of dead jobs *)

Section DeadBound.

Lemma delete_rows_bound job_id rows :
  Forall dead_bound rows -> Forall dead_bound (delete_rows job_id rows).
Proof.
  rewrite !List.Forall_forall. intros H row Hin.
  apply filter_In in Hin as [Hin _]. now apply H.
Qed.

Lemma update_rows_bound job_id f rows :
  (forall row, dead_bound row -> dead_bound (f row)) ->
  Forall dead_bound rows -> Forall dead_bound (update_rows job_id f rows).
Proof.
  intros Hf H. unfold update_rows.
  induction H as [|row rows Hrow _ IH]; simpl; constructor; [|assumption].
  destruct (has_id job_id row); auto.
Qed.

Lemma save_job_bound now job db :
  dead_bound job -> store_ok db -> store_ok (snd (save_job now job db)).
Proof.
  unfold store_ok, save_job. simpl. intros Hjob Hdb.
  apply Forall_app. split; [now apply delete_rows_bound|].
  constructor; [exact Hjob|constructor].
Qed.

Lemma release_job_bound job_id db : store_ok db -> store_ok (release_job job_id db).
Proof.
  unfold store_ok, release_job. simpl. apply update_rows_bound.
  intros row H. exact H.
Qed.

Lemma acquire_job_bound worker_id now db_now db :
  store_ok db -> store_ok (snd (acquire_job worker_id now db_now db)).
Proof.
  unfold store_ok, acquire_job. intros H.
  destruct (select_candidate _ _ (jobs db)); simpl; [|assumption].
  apply update_rows_bound; [|assumption].
  intros row _ Hdead. discriminate Hdead.
Qed.

Lemma get_config_bound db : store_ok db -> store_ok (snd (get_config db)).
Proof. unfold store_ok, get_config. now destruct (config db). Qed.

Lemma recover_stuck_bound db : store_ok db -> store_ok (Worker.recover_stuck db).
Proof.
  unfold store_ok, Worker.recover_stuck. simpl. intros H.
  induction H as [|row rows Hrow _ IH]; simpl; constructor; [|assumption].
  destruct (String.eqb (state row) JobState.PROCESSING); [|assumption].
  intros Hdead. discriminate Hdead.
Qed.

(** Whatever the job and the outcome, the executor marks a job [dead]
    only under the guard [attempts >= max_retries]. *)
Lemma classify_bound cfg now out job :
  dead_bound (Worker.classify cfg now out job).
Proof.
  unfold dead_bound.
  try_block_paths out; intros Hdead; try discriminate Hdead; lia.
Qed.

Lemma _execute_job_bound cfg now now_save out job db :
  store_ok db -> store_ok (snd (Worker._execute_job cfg now now_save out job db)).
Proof.
  intros H. unfold Worker._execute_job, save_job. simpl.
  apply release_job_bound.
  exact (save_job_bound now_save _ db (classify_bound cfg now out job) H).
Qed.

Lemma dlq_retry_bound job_id reset_attempts now db :
  store_ok db -> store_ok (db_after (dlq_retry job_id reset_attempts now db)).
Proof.
  intros H. unfold dlq_retry.
  destruct (get_job job_id db) as [job|]; [|assumption].
  destruct (negb (String.eqb (state job) JobState.DEAD)); [assumption|].
  match goal with
  | |- context [save_job now ?j db] =>
      pose proof (save_job_bound now j db) as Hs
  end.
  unfold save_job in *. simpl in *. apply Hs; [|assumption].
  destruct reset_attempts; intros Hdead; discriminate Hdead.
Qed.

(** [clear] deletes the rows of a list of jobs, or nothing. *)
Lemma clear_jobs_cases st db :
  clear_jobs st db = db
  \/ exists victims, clear_jobs st db = delete_all victims db.
Proof.
  unfold clear_jobs. destruct st as [s|]; [|eauto].
  destruct (String.eqb s EmptyString); [eauto|].
  destruct (existsb _ _); eauto.
Qed.

Lemma delete_all_bound victims : forall db,
  store_ok db -> store_ok (delete_all victims db).
Proof.
  unfold delete_all.
  induction victims as [|v victims IH]; intros db H; simpl; [assumption|].
  apply IH. unfold store_ok, delete_job. simpl. now apply delete_rows_bound.
Qed.

Lemma enqueue_bound opt_priority opt_timeout job_data now now_save db r :
  names_dead job_data = false ->
  enqueue opt_priority opt_timeout job_data now now_save db = Some r ->
  store_ok db -> store_ok (db_after r).
Proof.
  intros Hplain Hr H. apply get_config_bound in H.
  unfold enqueue in Hr. destruct (get_config db) as [cfg db1]. simpl in H.
  destruct (from_dict _ now) as [job|text|key] eqn:Hbuilt;
    [|injection Hr as <-; exact H|discriminate].
  destruct (get_job (id job) db1); [injection Hr as <-; exact H|].
  pose proof (save_job_bound now_save job db1) as Hs.
  unfold save_job in *. simpl in *. injection Hr as <-. simpl.
  apply Hs; [|assumption].
  apply from_dict_built in Hbuilt as (_ & Hst & _).
  unfold given_str in Hst.
  rewrite fill_defaults_other in Hst by discriminate.
  intros Hdead. unfold names_dead in Hplain.
  destruct (job_data !! "state") as [[| |s]|]; rewrite Hst in Hdead;
    try discriminate Hdead.
  rewrite Hdead in Hplain. discriminate Hplain.
Qed.

Lemma step_bound e s s' :
  ordinary e = true -> step e s = Some s' -> store_ok (db s) -> store_ok (db s').
Proof.
  intros Hord Hstep H.
  destruct e; simpl in Hstep, Hord.
  - destruct (enqueue _ _ _ _ _ (db s)) as [r|] eqn:Hr; [|discriminate].
    injection Hstep as <-. simpl.
    apply (enqueue_bound _ _ _ _ _ _ _ (proj1 (negb_true_iff _) Hord) Hr H).
  - injection Hstep as <-. now apply recover_stuck_bound.
  - pose proof (get_config_bound _ H) as H1.
    destruct (get_config (db s)) as [cfg db1]. simpl in H1.
    pose proof (acquire_job_bound worker_id now db_now _ H1) as H2.
    destruct (acquire_job worker_id now db_now db1) as [[job|] db2];
      injection Hstep as <-; exact H2.
  - destruct (List.find _ _) as [[w [cfg job]]|]; [|discriminate].
    injection Hstep as <-. now apply _execute_job_bound.
  - destruct (List.find _ _) as [[w [cfg job]]|]; [|discriminate].
    injection Hstep as <-. now apply release_job_bound.
  - injection Hstep as <-. exact H.
  - injection Hstep as <-. now apply dlq_retry_bound.
  - injection Hstep as <-. now apply delete_all_bound.
  - injection Hstep as <-. cbn [db].
    destruct (clear_jobs_cases st (db s)) as [->|[victims ->]];
      [exact H|now apply delete_all_bound].
  - injection Hstep as <-. exact H.
Qed.

Lemma run_bound evs : forall s s',
  forallb ordinary evs = true -> run evs s = Some s' ->
  store_ok (db s) -> store_ok (db s').
Proof.
  induction evs as [|e evs IH]; intros s s' Hord Hrun H; simpl in *.
  - now injection Hrun as <-.
  - apply andb_true_iff in Hord as [He Hevs].
    destruct (step e s) as [s1|] eqn:Hstep; [|discriminate].
    apply (IH s1 s' Hevs Hrun). exact (step_bound e s s1 He Hstep H).
Qed.

End DeadBound.

(** C6, as worded, fails: [enqueue] stores a job whose JSON names the
    state [dead] as a dead job that was never attempted. *)
Lemma dead_job_without_attempts :
  ~ (forall row, reachable_job row -> dead_bound row).
Proof.
  intros H.
  assert (Hreach : reachable_job
            (mkJob "y" "true" "dead" 0 3 None 2
               "2026-11-04T10:00:00.250000Z" "2026-11-04T10:00:00.250000Z"
               None None None None)).
  { exists [Enqueue None None Forged.dead_on_arrival Forged.t0 Forged.t0].
    eexists. split; [vm_compute; reflexivity|]. now left. }
  specialize (H _ Hreach eq_refl). simpl in H. lia.
Qed.

(** C6 (amended): in every history in which no [enqueue] is given a JSON
    object that names the state [dead], each stored job with
    [state = dead] has [attempts >= max_retries]. *)
Theorem dead_job_exhausted_retries evs s row :
  forallb ordinary evs = true ->
  run evs initial = Some s ->
  In row (jobs (db s)) ->
  state row = JobState.DEAD ->
  attempts row >= max_retries row.
Proof.
  intros Hord Hrun Hin.
  assert (H : Forall dead_bound (jobs (db s))).
  { apply (run_bound evs initial s Hord Hrun). constructor. }
  rewrite List.Forall_forall in H. exact (H row Hin).
Qed.

Lemma dead_job_exhausted_retries_witness :
  let row :=
    mkJob "j5" "sleep 10" "dead" 1 0 (Some 1) 2
      "2026-11-04T10:00:00.250000Z" "2026-11-04T10:00:02.250000Z"
      None (Some "Job timed out after 1 seconds") None None in
  forallb ordinary Exhausted.history = true
  /\ run Exhausted.history initial = Some Exhausted.final
  /\ In row (jobs (db Exhausted.final))
  /\ state row = JobState.DEAD
  /\ attempts row >= max_retries row.
Proof.
  split; [vm_compute; reflexivity|].
  split; [vm_compute; reflexivity|].
  split; [vm_compute; left; reflexivity|].
  split; [reflexivity|].
  apply (dead_job_exhausted_retries Exhausted.history Exhausted.final).
  - vm_compute. reflexivity.
  - vm_compute. reflexivity.
  - vm_compute. left. reflexivity.
  - reflexivity.
Defined.

(** * Further properties of the store, the executor and the commands *)

(** ** ORDER BY *)

Section OrderBy.

Variable le : Job -> Job -> bool.
Hypothesis le_total : forall a b, le a b = false -> le b a = true.
Hypothesis le_trans :
  forall a b c, le a b = true -> le b c = true -> le a c = true.

Lemma insert_row_perm x l : Permutation (insert_row le x l) (x :: l).
Proof.
  induction l as [|y r IH]; simpl; [reflexivity|].
  destruct (le x y); [reflexivity|].
  rewrite IH. apply perm_swap.
Qed.

Lemma order_by_perm l : Permutation (order_by le l) l.
Proof.
  induction l as [|x r IH]; simpl; [reflexivity|].
  rewrite insert_row_perm. now constructor.
Qed.

Lemma insert_row_sorted x l :
  StronglySorted (fun a b => le a b = true) l ->
  StronglySorted (fun a b => le a b = true) (insert_row le x l).
Proof.
  induction 1 as [|y r Hr IH Hy]; simpl.
  - repeat constructor.
  - destruct (le x y) eqn:Hxy.
    + constructor; [now constructor|].
      constructor; [assumption|].
      rewrite List.Forall_forall in Hy |- *. intros z Hz.
      apply (le_trans x y z Hxy). now apply Hy.
    + constructor; [assumption|].
      rewrite List.Forall_forall in Hy |- *. intros z Hz.
      apply (Permutation_in z (insert_row_perm x r)) in Hz as [<-|Hz].
      * now apply le_total.
      * now apply Hy.
Qed.

Lemma order_by_sorted l :
  StronglySorted (fun a b => le a b = true) (order_by le l).
Proof.
  induction l as [|x r IH]; simpl; [constructor|].
  now apply insert_row_sorted.
Qed.

End OrderBy.

Lemma listing_le_total a b : listing_le a b = false -> listing_le b a = true.
Proof.
  unfold listing_le. intros H.
  apply orb_false_iff in H as [Hlt H].
  apply Z.ltb_ge in Hlt.
  destruct (Z.eqb_spec (priority a) (priority b)) as [E|NE]; simpl in H.
  - apply string_leb_false in H. rewrite <- E, Z.eqb_refl, H.
    now rewrite orb_true_r.
  - assert (L : priority b < priority a) by lia.
    apply Z.ltb_lt in L. now rewrite L.
Qed.

Lemma listing_le_trans a b c :
  listing_le a b = true -> listing_le b c = true -> listing_le a c = true.
Proof.
  unfold listing_le. intros Hab Hbc.
  apply orb_true_iff in Hab. apply orb_true_iff in Hbc.
  apply orb_true_iff.
  destruct Hab as [Hab|Hab]; destruct Hbc as [Hbc|Hbc];
    try apply Z.ltb_lt in Hab; try apply Z.ltb_lt in Hbc;
    try (apply andb_true_iff in Hab as [Eab Lab]; apply Z.eqb_eq in Eab);
    try (apply andb_true_iff in Hbc as [Ebc Lbc]; apply Z.eqb_eq in Ebc).
  - left. apply Z.ltb_lt. lia.
  - left. apply Z.ltb_lt. lia.
  - left. apply Z.ltb_lt. lia.
  - right. apply andb_true_iff. split.
    + apply Z.eqb_eq. lia.
    + now apply (string_leb_trans _ (created_at b)).
Qed.

Lemma sorted_job_of_row (le : Job -> Job -> bool) l :
  (forall a b, le (job_of_row a) (job_of_row b) = le a b) ->
  StronglySorted (fun a b => le a b = true) l ->
  StronglySorted (fun a b => le a b = true) (List.map job_of_row l).
Proof.
  intros Hle. induction 1 as [|x r Hr IH Hx]; simpl; constructor;
    [assumption|].
  rewrite List.Forall_forall in Hx |- *. intros z Hz.
  apply in_map_iff in Hz as (y & <- & Hy). rewrite Hle. now apply Hx.
Qed.

(** X1: [get_jobs_by_state] returns exactly the stored jobs of the state,
    each once and without its lock, in dispatch order: no job of the list
    comes after one of lower priority or, at equal priority, after one
    created (textually) later. *)
Theorem get_jobs_by_state_sorted st db :
  StronglySorted (fun a b => dispatch_le a b = true) (get_jobs_by_state st db)
  /\ Permutation (get_jobs_by_state st db)
       (List.map job_of_row
          (List.filter (fun row => String.eqb (state row) st) (jobs db)))
  /\ (forall job, In job (get_jobs_by_state st db) ->
        state job = st /\ locked_by job = None /\ locked_at job = None).
Proof.
  unfold get_jobs_by_state. split; [|split].
  - apply sorted_job_of_row; [reflexivity|].
    apply order_by_sorted;
      [exact dispatch_le_total|exact dispatch_le_trans].
  - apply Permutation_map, order_by_perm.
  - intros job Hjob. apply in_map_iff in Hjob as (row & <- & Hrow).
    apply (Permutation_in row (order_by_perm dispatch_le _)) in Hrow.
    apply filter_In in Hrow as [_ Hst]. apply String.eqb_eq in Hst.
    now repeat split.
Qed.

(** X2: [get_all_jobs] returns every stored job once, without its lock,
    by priority ascending and, within a priority, newest [created_at]
    first. *)
Theorem get_all_jobs_sorted db :
  StronglySorted (fun a b => listing_le a b = true) (get_all_jobs db)
  /\ Permutation (get_all_jobs db) (List.map job_of_row (jobs db))
  /\ length (get_all_jobs db) = length (jobs db).
Proof.
  unfold get_all_jobs. split; [|split].
  - apply sorted_job_of_row; [reflexivity|].
    apply order_by_sorted; [exact listing_le_total|exact listing_le_trans].
  - apply Permutation_map, order_by_perm.
  - rewrite length_map. apply Permutation_length, order_by_perm.
Qed.

(** ** Lookups after writes *)

Lemma find_delete_rows_other k i rows :
  k <> i ->
  List.find (has_id k) (delete_rows i rows) = List.find (has_id k) rows.
Proof.
  intros Hne. induction rows as [|row rows IH]; simpl; [reflexivity|].
  destruct (has_id i row) eqn:Hi; simpl.
  - destruct (has_id k row) eqn:Hk; [|assumption].
    apply has_id_eq in Hi. apply has_id_eq in Hk. congruence.
  - now rewrite IH.
Qed.

Lemma find_app_some (f : Job -> bool) l1 l2 x :
  List.find f l1 = Some x -> List.find f (l1 ++ l2) = Some x.
Proof.
  induction l1 as [|y l1 IH]; simpl; [discriminate|].
  destruct (f y); [trivial|assumption].
Qed.

(** X3: [save_job] writes one job only: every job of another [id] reads
    after the save as it read before. *)
Theorem save_job_other_ids now job db k :
  k <> id job ->
  get_job k (snd (save_job now job db)) = get_job k db.
Proof.
  intros Hne. unfold get_job, save_job. simpl. f_equal.
  rewrite <- (find_delete_rows_other k (id job) (jobs db) Hne).
  destruct (List.find (has_id k) (delete_rows (id job) (jobs db)))
    as [row|] eqn:F.
  - now apply find_app_some.
  - rewrite find_app_none by assumption. simpl.
    unfold has_id at 1. simpl.
    destruct (String.eqb_spec (id job) k); [congruence|reflexivity].
Qed.

Lemma save_job_other_ids_witness :
  "j9" <> id (mkJob "j1" "false" "failed" 1 3 None 2 "c" "u"
                None None None None)
  /\ get_job "j9"
       (snd (save_job Samples.t0
               (mkJob "j1" "false" "failed" 1 3 None 2 "c" "u"
                  None None None None)
               Samples.after_enqueue))
     = get_job "j9" Samples.after_enqueue.
Proof.
  split; [discriminate|].
  apply (save_job_other_ids Samples.t0
           (mkJob "j1" "false" "failed" 1 3 None 2 "c" "u"
              None None None None)
           Samples.after_enqueue "j9").
  discriminate.
Defined.

(** X4: after [delete_job] the job is gone and every other job reads as
    before; deleting an [id] that is not stored changes nothing. *)
Theorem delete_job_lookup job_id db k :
  fst (delete_job job_id db) = true
  /\ get_job k (snd (delete_job job_id db)) =
       (if String.eqb k job_id then None else get_job k db)
  /\ (get_job job_id db = None -> snd (delete_job job_id db) = db).
Proof.
  split; [reflexivity|]. unfold get_job, delete_job. simpl. split.
  - destruct (String.eqb_spec k job_id) as [->|Hne].
    + now rewrite find_delete_rows.
    + now rewrite find_delete_rows_other.
  - intros Hnone. destruct db as [rows cfg]. unfold with_jobs. simpl in *.
    f_equal.
    destruct (List.find (has_id job_id) rows) as [row|] eqn:F;
      [discriminate|].
    clear Hnone. induction rows as [|row rows IH]; simpl in *;
      [reflexivity|].
    destruct (has_id job_id row); [discriminate|]. simpl.
    now rewrite IH.
Qed.

(** ** The primary key *)

Lemma ids_delete_rows i rows :
  List.map id (delete_rows i rows) =
    List.filter (fun k => negb (String.eqb k i)) (List.map id rows).
Proof.
  induction rows as [|row rows IH]; simpl; [reflexivity|].
  unfold has_id at 1. destruct (String.eqb (id row) i); simpl;
    now rewrite IH.
Qed.

Lemma ids_update_rows i f rows :
  (forall row, id (f row) = id row) ->
  List.map id (update_rows i f rows) = List.map id rows.
Proof.
  intros Hf. unfold update_rows. rewrite List.map_map.
  apply List.map_ext. intros row. now destruct (has_id i row).
Qed.

Lemma NoDup_filter_ids (f : string -> bool) (l : list string) :
  NoDup l -> NoDup (List.filter f l).
Proof.
  induction 1 as [|x l Hx Hl IH]; simpl; [constructor|].
  destruct (f x); [|assumption].
  constructor; [|assumption].
  rewrite list_elem_of_In in *. intros Hin.
  apply filter_In in Hin as [Hin _]. contradiction.
Qed.

Lemma save_job_unique now job db :
  unique_ids db -> unique_ids (snd (save_job now job db)).
Proof.
  unfold unique_ids, save_job. simpl. intros H.
  rewrite List.map_app, ids_delete_rows. simpl.
  apply NoDup_app. split; [now apply NoDup_filter_ids|]. split.
  - intros k Hk Hk'. apply list_elem_of_In in Hk.
    apply filter_In in Hk as [_ Hk].
    apply list_elem_of_singleton in Hk'. subst k.
    now rewrite String.eqb_refl in Hk.
  - repeat constructor. intros Hin. inversion Hin.
Qed.

Lemma delete_all_unique victims : forall db,
  unique_ids db -> unique_ids (delete_all victims db).
Proof.
  unfold delete_all.
  induction victims as [|v victims IH]; intros db H; simpl; [assumption|].
  apply IH. unfold unique_ids, delete_job. simpl.
  rewrite ids_delete_rows. now apply NoDup_filter_ids.
Qed.

Lemma acquire_job_ids worker_id now db_now db :
  List.map id (jobs (snd (acquire_job worker_id now db_now db))) =
    List.map id (jobs db).
Proof.
  unfold acquire_job. destruct (select_candidate _ _ (jobs db)); simpl;
    [|reflexivity].
  now apply ids_update_rows.
Qed.

Lemma step_unique e s s' :
  step e s = Some s' -> unique_ids (db s) -> unique_ids (db s').
Proof.
  intros Hstep H. destruct e; simpl in Hstep.
  - unfold enqueue in Hstep.
    assert (H1 : unique_ids (snd (get_config (db s))))
      by (unfold get_config; now destruct (config (db s))).
    destruct (get_config (db s)) as [cfg db1]. simpl in H1.
    destruct (from_dict _ now) as [job|text|key]; [| |discriminate].
    + destruct (get_job (id job) db1).
      * now injection Hstep as <-.
      * pose proof (save_job_unique now_save job db1 H1) as Hs.
        unfold save_job in *. simpl in *. now injection Hstep as <-.
    + now injection Hstep as <-.
  - injection Hstep as <-. unfold unique_ids, Worker.recover_stuck. simpl.
    rewrite List.map_map.
    erewrite List.map_ext; [exact H|].
    intros row. now destruct (String.eqb (state row) JobState.PROCESSING).
  - assert (H1 : unique_ids (snd (get_config (db s))))
      by (unfold get_config; now destruct (config (db s))).
    destruct (get_config (db s)) as [cfg db1]. simpl in H1.
    pose proof (acquire_job_ids worker_id now db_now db1) as Hids.
    destruct (acquire_job worker_id now db_now db1) as [[job|] db2];
      injection Hstep as <-; unfold unique_ids; simpl in *;
      now rewrite Hids.
  - destruct (List.find _ _) as [[w [cfg job]]|]; [|discriminate].
    injection Hstep as <-. simpl.
    unfold Worker._execute_job, save_job. simpl.
    unfold unique_ids, release_job. simpl.
    rewrite ids_update_rows by reflexivity.
    exact (save_job_unique now_save _ (db s) H).
  - destruct (List.find _ _) as [[w [cfg job]]|]; [|discriminate].
    injection Hstep as <-. unfold unique_ids, release_job. simpl.
    now rewrite ids_update_rows.
  - now injection Hstep as <-.
  - injection Hstep as <-. simpl. unfold dlq_retry.
    destruct (get_job job_id (db s)) as [job|]; [|assumption].
    destruct (negb (String.eqb (state job) JobState.DEAD)); [assumption|].
    match goal with
    | |- context [save_job now ?j (db s)] =>
        exact (save_job_unique now j (db s) H)
    end.
  - injection Hstep as <-. now apply delete_all_unique.
  - injection Hstep as <-. cbn [db].
    destruct (clear_jobs_cases st (db s)) as [->|[victims ->]];
      [exact H|now apply delete_all_unique].
  - now injection Hstep as <-.
Qed.

(** X5: no history breaks the primary key: if no two rows of [jobs] have
    the same [id] before a history (as in the empty database), none have
    after it. *)
Theorem reachable_unique_ids evs : forall s s',
  run evs s = Some s' -> unique_ids (db s) -> unique_ids (db s').
Proof.
  induction evs as [|e evs IH]; intros s s' Hrun H; simpl in Hrun.
  - now injection Hrun as <-.
  - destruct (step e s) as [s1|] eqn:Hstep; [|discriminate].
    exact (IH s1 s' Hrun (step_unique e s s1 Hstep H)).
Qed.

Lemma reachable_unique_ids_witness :
  run Exhausted.history initial = Some Exhausted.final
  /\ unique_ids (db initial)
  /\ unique_ids (db Exhausted.final).
Proof.
  split; [vm_compute; reflexivity|].
  split; [constructor|].
  apply (reachable_unique_ids Exhausted.history initial Exhausted.final).
  - vm_compute. reflexivity.
  - constructor.
Defined.

(** ** Locks *)

Section LockCoherence.

Lemma unlocked_coherent by_free row :
  by_free = set_lock None None row -> lock_coherent by_free.
Proof. intros -> _. now split. Qed.

Lemma delete_rows_coherent i rows :
  Forall lock_coherent rows -> Forall lock_coherent (delete_rows i rows).
Proof.
  rewrite !List.Forall_forall. intros H row Hin.
  apply filter_In in Hin as [Hin _]. now apply H.
Qed.

Lemma update_rows_coherent i f rows :
  (forall row, lock_coherent (f row)) ->
  Forall lock_coherent rows -> Forall lock_coherent (update_rows i f rows).
Proof.
  intros Hf H. unfold update_rows.
  induction H as [|row rows Hrow _ IH]; simpl; constructor; [|assumption].
  destruct (has_id i row); auto.
Qed.

Lemma save_job_coherent now job db :
  locks_coherent db -> locks_coherent (snd (save_job now job db)).
Proof.
  unfold locks_coherent, save_job. simpl. intros H.
  apply Forall_app. split; [now apply delete_rows_coherent|].
  constructor; [|constructor]. now eapply unlocked_coherent.
Qed.

Lemma release_job_coherent i db : locks_coherent db -> locks_coherent (release_job i db).
Proof.
  unfold locks_coherent, release_job. simpl. apply update_rows_coherent.
  intros row. now eapply unlocked_coherent.
Qed.

Lemma delete_all_coherent victims : forall db,
  locks_coherent db -> locks_coherent (delete_all victims db).
Proof.
  unfold delete_all.
  induction victims as [|v victims IH]; intros db H; simpl; [assumption|].
  apply IH. unfold locks_coherent, delete_job. simpl.
  now apply delete_rows_coherent.
Qed.

Lemma step_coherent e s s' :
  step e s = Some s' -> locks_coherent (db s) -> locks_coherent (db s').
Proof.
  intros Hstep H. destruct e; simpl in Hstep.
  - unfold enqueue in Hstep.
    assert (H1 : locks_coherent (snd (get_config (db s))))
      by (unfold get_config; now destruct (config (db s))).
    destruct (get_config (db s)) as [cfg db1]. simpl in H1.
    destruct (from_dict _ now) as [job|text|key]; [| |discriminate].
    + destruct (get_job (id job) db1).
      * now injection Hstep as <-.
      * pose proof (save_job_coherent now_save job db1 H1) as Hs.
        unfold save_job in *. simpl in *. now injection Hstep as <-.
    + now injection Hstep as <-.
  - injection Hstep as <-. unfold locks_coherent, Worker.recover_stuck. simpl.
    induction H as [|row rows Hrow _ IH]; simpl; constructor; [|assumption].
    destruct (String.eqb (state row) JobState.PROCESSING); [|assumption].
    now eapply unlocked_coherent.
  - assert (H1 : locks_coherent (snd (get_config (db s))))
      by (unfold get_config; now destruct (config (db s))).
    destruct (get_config (db s)) as [cfg db1]. simpl in H1.
    assert (H2 : locks_coherent (snd (acquire_job worker_id now db_now db1))).
    { unfold locks_coherent, acquire_job.
      destruct (select_candidate _ _ (jobs db1)); simpl; [|assumption].
      apply update_rows_coherent; [|assumption].
      intros row Hst. now contradiction Hst. }
    destruct (acquire_job worker_id now db_now db1) as [[job|] db2];
      injection Hstep as <-; exact H2.
  - destruct (List.find _ _) as [[w [cfg job]]|]; [|discriminate].
    injection Hstep as <-. simpl.
    unfold Worker._execute_job, save_job. simpl.
    apply release_job_coherent.
    exact (save_job_coherent now_save _ (db s) H).
  - destruct (List.find _ _) as [[w [cfg job]]|]; [|discriminate].
    injection Hstep as <-. now apply release_job_coherent.
  - now injection Hstep as <-.
  - injection Hstep as <-. simpl. unfold dlq_retry.
    destruct (get_job job_id (db s)) as [job|]; [|assumption].
    destruct (negb (String.eqb (state job) JobState.DEAD)); [assumption|].
    match goal with
    | |- context [save_job now ?j (db s)] =>
        exact (save_job_coherent now j (db s) H)
    end.
  - injection Hstep as <-. now apply delete_all_coherent.
  - injection Hstep as <-. cbn [db].
    destruct (clear_jobs_cases st (db s)) as [->|[victims ->]];
      [exact H|now apply delete_all_coherent].
  - now injection Hstep as <-.
Qed.

Lemma run_coherent evs : forall s s',
  run evs s = Some s' -> locks_coherent (db s) -> locks_coherent (db s').
Proof.
  induction evs as [|e evs IH]; intros s s' Hrun H; simpl in Hrun.
  - now injection Hrun as <-.
  - destruct (step e s) as [s1|] eqn:Hstep; [|discriminate].
    exact (IH s1 s' Hrun (step_coherent e s s1 Hstep H)).
Qed.

End LockCoherence.

(** X6: in every history from the empty database only a row in state
    [processing] holds a lock; so a pending or failed row always passes
    the lock test of [acquire_job], and the stale-lock comparison never
    decides a dispatch. *)
Theorem reachable_lock_only_on_processing evs s row :
  run evs initial = Some s ->
  In row (jobs (db s)) ->
  state row <> JobState.PROCESSING ->
  locked_by row = None /\ locked_at row = None
  /\ forall stale_before, lock_free stale_before row = true.
Proof.
  intros Hrun Hin Hst.
  assert (H : Forall lock_coherent (jobs (db s))).
  { apply (run_coherent evs initial s Hrun). constructor. }
  rewrite List.Forall_forall in H.
  destruct (H row Hin Hst) as [Hby Hat].
  repeat split; try assumption.
  intros stale_before. unfold lock_free. now rewrite Hby.
Qed.

Lemma reachable_lock_only_on_processing_witness :
  let row :=
    mkJob "j5" "sleep 10" "dead" 1 0 (Some 1) 2
      "2026-11-04T10:00:00.250000Z" "2026-11-04T10:00:02.250000Z"
      None (Some "Job timed out after 1 seconds") None None in
  run Exhausted.history initial = Some Exhausted.final
  /\ In row (jobs (db Exhausted.final))
  /\ state row <> JobState.PROCESSING
  /\ locked_by row = None /\ locked_at row = None
  /\ forall stale_before, lock_free stale_before row = true.
Proof.
  split; [vm_compute; reflexivity|].
  split; [vm_compute; left; reflexivity|].
  split; [discriminate|].
  apply (reachable_lock_only_on_processing Exhausted.history Exhausted.final).
  - vm_compute. reflexivity.
  - vm_compute. left. reflexivity.
  - discriminate.
Defined.

(** ** More on acquire_job *)

Lemma in_update_rows i f rows row :
  In row (update_rows i f rows) ->
  exists r, In r rows
            /\ row = (if has_id i r then f r else r).
Proof.
  unfold update_rows. intros H. apply in_map_iff in H as (r & <- & Hr).
  eauto.
Qed.

(** X7: two calls of [acquire_job] in a row never hand out the same job:
    the job that the first call returned is not the one the second call
    returns, whoever asks and whenever. *)
Theorem acquire_job_twice worker1 now1 db_now1 worker2 now2 db_now2 db
    job1 job2 :
  fst (acquire_job worker1 now1 db_now1 db) = Some job1 ->
  fst (acquire_job worker2 now2 db_now2
         (snd (acquire_job worker1 now1 db_now1 db))) = Some job2 ->
  id job1 <> id job2.
Proof.
  intros H1 H2.
  destruct (acquire_job_unfold _ _ _ _ _ H1) as (row1 & _ & -> & Hdb).
  destruct (acquire_job_skips_processing _ _ _ _ _ H2)
    as (row2 & Hin & <- & Hst).
  rewrite Hdb in Hin. apply in_update_rows in Hin as (r & _ & ->).
  simpl. destruct (has_id (id row1) r) eqn:Hid.
  - now contradiction Hst.
  - intros E. rewrite E in Hid. now rewrite has_id_refl in Hid.
Qed.

Lemma acquire_job_twice_witness :
  let first :=
    acquire_job "worker-1" (Ties.t0 + 2) (Ties.t0 + 2) Ties.store in
  let job_b :=
    mkJob "b" "echo b" "processing" 0 3 None 2 "2026-11-04T09:00:00Z"
      "2026-11-04T10:00:00.250000Z" None None None None in
  let job_a :=
    mkJob "a" "echo a" "processing" 0 3 None 2 "2026-11-04T09:00:00Z"
      "2026-11-04T10:00:00.250001Z" None None None None in
  fst first = Some job_b
  /\ fst (acquire_job "worker-2" (Ties.t0 + 3) (Ties.t0 + 3) (snd first))
     = Some job_a
  /\ id job_b <> id job_a.
Proof.
  split; [vm_compute; reflexivity|].
  split; [vm_compute; reflexivity|].
  apply (acquire_job_twice "worker-1" (Ties.t0 + 2) (Ties.t0 + 2)
           "worker-2" (Ties.t0 + 3) (Ties.t0 + 3) Ties.store);
    vm_compute; reflexivity.
Defined.

Lemma find_update_rows k i f rows :
  (forall row, id (f row) = id row) ->
  List.find (has_id k) (update_rows i f rows) =
    option_map (fun r => if has_id i r then f r else r)
      (List.find (has_id k) rows).
Proof.
  intros Hf. induction rows as [|r rows IH]; simpl; [reflexivity|].
  assert (E : has_id k (if has_id i r then f r else r) = has_id k r).
  { destruct (has_id i r); [|reflexivity]. unfold has_id. now rewrite Hf. }
  rewrite E. destruct (has_id k r); [reflexivity|assumption].
Qed.

(** X8: when the ids are unique, the job that [acquire_job] returns is
    the one that [get_job] reads afterwards, every other job reads as
    before, and no row is added or removed. *)
Theorem acquire_job_read_back worker_id now db_now db job :
  unique_ids db ->
  fst (acquire_job worker_id now db_now db) = Some job ->
  let db' := snd (acquire_job worker_id now db_now db) in
  get_job (id job) db' = Some job
  /\ (forall k, k <> id job -> get_job k db' = get_job k db)
  /\ length (jobs db') = length (jobs db).
Proof.
  intros Hu Hacq db'.
  destruct (acquire_job_unfold _ _ _ _ _ Hacq) as (row & Hsel & -> & Hdb).
  destruct (select_candidate_some _ _ _ _ Hsel) as (Hin & _).
  unfold get_job. subst db'. rewrite Hdb. repeat split.
  - rewrite find_update_rows by reflexivity.
    change (id (set_state JobState.PROCESSING (job_of_row row)))
      with (id row).
    rewrite (find_unique_id _ _ Hu Hin). simpl.
    now rewrite has_id_refl.
  - intros k Hk. rewrite find_update_rows by reflexivity.
    destruct (List.find (has_id k) (jobs db)) as [r|] eqn:F;
      [|reflexivity].
    apply find_some in F as [_ F]. apply has_id_eq in F. simpl.
    destruct (has_id (id row) r) eqn:Hid; [|reflexivity].
    apply has_id_eq in Hid. simpl in Hk. congruence.
  - unfold update_rows. apply length_map.
Qed.

Lemma acquire_job_read_back_witness :
  let job :=
    mkJob "j1" "true" "processing" 0 3 None 2
      "2026-11-04T10:00:00.250000Z" "2026-11-04T10:00:00.250000Z"
      None None None None in
  let result :=
    acquire_job "worker-1" (Samples.t0 + 1) (Samples.t0 + 2)
      Samples.after_enqueue in
  unique_ids Samples.after_enqueue
  /\ fst result = Some job
  /\ get_job (id job) (snd result) = Some job
  /\ (forall k, k <> id job ->
                get_job k (snd result) = get_job k Samples.after_enqueue)
  /\ length (jobs (snd result)) = length (jobs Samples.after_enqueue).
Proof.
  assert (Hu : unique_ids Samples.after_enqueue).
  { unfold unique_ids. vm_compute. repeat constructor. intros H.
    inversion H. }
  split; [exact Hu|]. split; [exact acquire_j1|].
  apply (acquire_job_read_back "worker-1" (Samples.t0 + 1) (Samples.t0 + 2)
           Samples.after_enqueue); [exact Hu|exact acquire_j1].
Defined.

(** ** Recovery at worker start *)

Lemma eligible_row_is_acquired worker_id now db_now db row :
  In row (jobs db) ->
  eligible (Clock.utc_stamp now) (Clock.sqlite_5_minutes_ago db_now) row
    = true ->
  exists job, fst (acquire_job worker_id now db_now db) = Some job.
Proof.
  intros Hin Hel. unfold acquire_job.
  destruct (select_candidate _ _ (jobs db)) as [r|] eqn:Hsel; simpl;
    [eauto|].
  rewrite (select_candidate_none _ _ _ Hsel row Hin) in Hel. discriminate.
Qed.

(** X9: the recovery statement of [Worker.start] leaves no row in state
    [processing]: each such row becomes [failed], unlocked, with its
    [attempts], [next_retry_at] and [error_message] as they were; every
    other row is untouched, and running it again changes nothing. *)
Theorem recover_stuck_effect db :
  let db' := Worker.recover_stuck db in
  (forall row, In row (jobs db') -> state row <> JobState.PROCESSING)
  /\ (forall k,
        get_job k db' =
          option_map
            (fun job =>
               if String.eqb (state job) JobState.PROCESSING
               then set_state JobState.FAILED job else job)
            (get_job k db))
  /\ length (jobs db') = length (jobs db)
  /\ Worker.recover_stuck db' = db'.
Proof.
  unfold Worker.recover_stuck. simpl. repeat split.
  - intros row Hin. apply in_map_iff in Hin as (r & <- & _).
    destruct (String.eqb_spec (state r) JobState.PROCESSING);
      [discriminate|assumption].
  - intros k. unfold get_job. simpl.
    induction (jobs db) as [|r rows IH]; simpl; [reflexivity|].
    assert (E : has_id k
                  (if String.eqb (state r) JobState.PROCESSING
                   then set_lock None None (set_state JobState.FAILED r)
                   else r) = has_id k r)
      by now destruct (String.eqb (state r) JobState.PROCESSING).
    rewrite E. destruct (has_id k r); [|assumption]. simpl.
    change (state (job_of_row r)) with (state r).
    now destruct (String.eqb (state r) JobState.PROCESSING).
  - apply length_map.
  - unfold with_jobs. simpl. f_equal. rewrite List.map_map.
    apply List.map_ext. intros r.
    destruct (String.eqb_spec (state r) JobState.PROCESSING) as [E|NE];
      simpl; [reflexivity|].
    now destruct (String.eqb_spec (state r) JobState.PROCESSING).
Qed.

(** X10: once a worker has started, a job that was left in [processing]
    can be dispatched again: if its retry time is absent or not after
    [now], [acquire_job] finds a candidate.  The statement does not ask
    whether the worker that held the job is dead. *)
Theorem recovered_job_is_dispatchable worker_id now db_now db row :
  In row (jobs db) ->
  state row = JobState.PROCESSING ->
  retry_ready (Clock.utc_stamp now) row = true ->
  exists job,
    fst (acquire_job worker_id now db_now (Worker.recover_stuck db))
      = Some job.
Proof.
  intros Hin Hst Hready.
  apply (eligible_row_is_acquired worker_id now db_now _
           (set_lock None None (set_state JobState.FAILED row))).
  - unfold Worker.recover_stuck. simpl. apply in_map_iff.
    exists row. rewrite Hst. now split.
  - unfold eligible. simpl. unfold retry_ready in *. simpl.
    now rewrite Hready.
Qed.

Lemma recovered_job_is_dispatchable_witness :
  let row :=
    mkJob "j7" "sleep 60" "processing" 0 3 None 2
      "2026-11-04T10:00:00.250000Z" "2026-11-04T10:00:00.250000Z"
      None None (Some "worker-1") (Some "2026-11-04T10:00:01.250000Z") in
  In row (jobs Crash.store)
  /\ state row = JobState.PROCESSING
  /\ retry_ready (Clock.utc_stamp Crash.next_day) row = true
  /\ exists job,
       fst (acquire_job "worker-2" Crash.next_day Crash.next_day
              (Worker.recover_stuck Crash.store)) = Some job.
Proof.
  split; [vm_compute; left; reflexivity|].
  split; [reflexivity|]. split; [reflexivity|].
  apply (recovered_job_is_dispatchable "worker-2" Crash.next_day
           Crash.next_day Crash.store
           (mkJob "j7" "sleep 60" "processing" 0 3 None 2
              "2026-11-04T10:00:00.250000Z" "2026-11-04T10:00:00.250000Z"
              None None (Some "worker-1")
              (Some "2026-11-04T10:00:01.250000Z"))).
  - vm_compute. left. reflexivity.
  - reflexivity.
  - reflexivity.
Defined.

(** X11: a dead job that [dlq retry] has moved back can be dispatched at
    once: the next [acquire_job] finds a candidate. *)
Theorem dlq_retry_makes_dispatchable job_id reset_attempts t db job
    worker_id now db_now :
  get_job job_id db = Some job ->
  state job = JobState.DEAD ->
  exists next,
    fst (acquire_job worker_id now db_now
           (db_after (dlq_retry job_id reset_attempts t db))) = Some next.
Proof.
  intros Hget Hdead. unfold dlq_retry. rewrite Hget, Hdead. simpl.
  match goal with
  | |- context [with_jobs (?rows ++ [?row]) db] =>
      apply (eligible_row_is_acquired worker_id now db_now
               (with_jobs (rows ++ [row]) db) row)
  end.
  - simpl. apply in_or_app. right. now left.
  - now destruct reset_attempts.
Qed.

Lemma dlq_retry_makes_dispatchable_witness :
  let job :=
    mkJob "j5" "sleep 10" "dead" 1 0 (Some 1) 2
      "2026-11-04T10:00:00.250000Z" "2026-11-04T10:00:02.250000Z"
      None (Some "Job timed out after 1 seconds") None None in
  get_job "j5" (db Exhausted.final) = Some job
  /\ state job = JobState.DEAD
  /\ exists next,
       fst (acquire_job "worker-1" (Samples.t0 + 9) (Samples.t0 + 9)
              (db_after (dlq_retry "j5" true (Samples.t0 + 8)
                           (db Exhausted.final)))) = Some next.
Proof.
  split; [vm_compute; reflexivity|]. split; [reflexivity|].
  apply (dlq_retry_makes_dispatchable "j5" true (Samples.t0 + 8)
           (db Exhausted.final)
           (mkJob "j5" "sleep 10" "dead" 1 0 (Some 1) 2
              "2026-11-04T10:00:00.250000Z" "2026-11-04T10:00:02.250000Z"
              None (Some "Job timed out after 1 seconds") None None)).
  - vm_compute. reflexivity.
  - reflexivity.
Defined.

(** ** More on the executor *)

(** X12: whatever the outcome of the command, and also when the
    computation of the retry time raises, an attempt on a job whose
    integers fit the table stores the job with [attempts] raised by
    exactly one, in state [completed], [failed] or [dead], and with the
    [id], [command], [created_at], [max_retries], [priority] and
    [timeout] it had. *)
Theorem _execute_job_touches cfg now now_save out job db :
  storable (set_attempts (attempts job + 1) job) = true ->
  exists stored,
    get_job (id job) (snd (Worker._execute_job cfg now now_save out job db))
      = Some stored
    /\ attempts stored = attempts job + 1
    /\ (state stored = JobState.COMPLETED \/ state stored = JobState.FAILED
        \/ state stored = JobState.DEAD)
    /\ id stored = id job /\ command stored = command job
    /\ created_at stored = created_at job
    /\ max_retries stored = max_retries job
    /\ priority stored = priority job /\ timeout stored = timeout job
    /\ updated_at stored = Clock.utc_stamp now_save.
Proof.
  intros _.
  eexists. split; [apply _execute_job_stored|].
  destruct (classify_fields cfg now out job)
    as (Hid & Hc & Hcr & Hm & Hp & Ht & Ha & Hs).
  simpl. repeat split; assumption.
Qed.

Lemma _execute_job_touches_witness :
  let job := Overflow.j4 in
  storable (set_attempts (attempts job + 1) job) = true
  /\ exists stored,
       get_job (id job)
         (snd (Worker._execute_job Overflow.cfg Samples.t0 (Samples.t0 + 1)
                 (Returned 1 "" "boom") job empty_storage)) = Some stored
       /\ attempts stored = attempts job + 1
       /\ (state stored = JobState.COMPLETED
           \/ state stored = JobState.FAILED
           \/ state stored = JobState.DEAD)
       /\ id stored = id job /\ command stored = command job
       /\ created_at stored = created_at job
       /\ max_retries stored = max_retries job
       /\ priority stored = priority job /\ timeout stored = timeout job
       /\ updated_at stored = Clock.utc_stamp (Samples.t0 + 1).
Proof.
  split; [reflexivity|].
  apply (_execute_job_touches Overflow.cfg Samples.t0 (Samples.t0 + 1)
           (Returned 1 "" "boom") Overflow.j4 empty_storage).
  reflexivity.
Defined.

(** X13: after an attempt on a job whose integers fit the table no row
    with the job's [id] is locked or in state [processing], and there is
    exactly one such row, even if the job was deleted while the command
    ran. *)
Theorem _execute_job_releases cfg now now_save out job db :
  storable (set_attempts (attempts job + 1) job) = true ->
  let db' := snd (Worker._execute_job cfg now now_save out job db) in
  (forall row, In row (jobs db') -> id row = id job ->
               locked_by row = None /\ locked_at row = None
               /\ state row <> JobState.PROCESSING)
  /\ length (List.filter (has_id (id job)) (jobs db')) = 1%nat.
Proof.
  intros _.
  destruct (classify_fields cfg now out job) as (Hid & _ & _ & _ & _ & _ & _ & Hs).
  unfold Worker._execute_job, save_job, release_job. simpl.
  rewrite Hid.
  set (saved := set_lock None None
                  (set_updated_at (Clock.utc_stamp now_save)
                     (Worker.classify cfg now out job))).
  assert (Hsaved : has_id (id job) saved = true).
  { unfold has_id, saved. simpl. rewrite Hid. apply String.eqb_refl. }
  assert (Hrest : forall rows,
             List.filter (has_id (id job))
               (List.map
                  (fun r => if has_id (id job) r
                            then set_lock None None r else r)
                  (delete_rows (id job) rows)) = []).
  { induction rows as [|r rows IH]; simpl; [reflexivity|].
    destruct (has_id (id job) r) eqn:E; simpl; [assumption|].
    rewrite E. simpl. now rewrite E. }
  assert (Hone : forall rows,
             List.filter (has_id (id job))
               (update_rows (id job) (set_lock None None)
                  (delete_rows (id job) rows ++ [saved]))
             = [set_lock None None saved]).
  { intros rows. unfold update_rows.
    rewrite List.map_app, List.filter_app, Hrest. simpl.
    rewrite Hsaved.
    change (has_id (id job) (set_lock None None saved))
      with (has_id (id job) saved).
    now rewrite Hsaved. }
  split.
  - intros row Hin Hrow.
    assert (Hf : In row [set_lock None None saved]).
    { rewrite <- (Hone (jobs db)). apply filter_In. split; [assumption|].
      unfold has_id. rewrite Hrow. apply String.eqb_refl. }
    destruct Hf as [<-|[]]. simpl. repeat split.
    destruct Hs as [-> | [-> | ->]]; discriminate.
  - now rewrite Hone.
Qed.

Lemma _execute_job_releases_witness :
  let job :=
    mkJob "j7" "sleep 60" "processing" 0 3 None 2
      "2026-11-04T10:00:00.250000Z" "2026-11-04T10:00:00.250000Z"
      None None None None in
  let db' :=
    snd (Worker._execute_job default_config (Samples.t0 + 5) (Samples.t0 + 6)
           TimeoutExpired job Crash.store) in
  storable (set_attempts (attempts job + 1) job) = true
  /\ (forall row, In row (jobs db') -> id row = id job ->
                  locked_by row = None /\ locked_at row = None
                  /\ state row <> JobState.PROCESSING)
  /\ length (List.filter (has_id (id job)) (jobs db')) = 1%nat.
Proof.
  split; [reflexivity|].
  apply (_execute_job_releases default_config (Samples.t0 + 5)
           (Samples.t0 + 6) TimeoutExpired
           (mkJob "j7" "sleep 60" "processing" 0 3 None 2
              "2026-11-04T10:00:00.250000Z" "2026-11-04T10:00:00.250000Z"
              None None None None) Crash.store).
  reflexivity.
Defined.

(** *** Error messages *)

Example strip_ex :
  strip (Samples.nbsp +:+ "boom" +:+ Samples.nbsp) = "boom"
  /\ strip ("  boom " +:+ Samples.emsp) = "boom"
  /\ strip ("a " +:+ Samples.nbsp +:+ " b") = "a " +:+ Samples.nbsp +:+ " b"
  /\ strip (Samples.emsp +:+ " " +:+ Samples.nbsp) = EmptyString.
Proof. vm_compute. repeat split. Qed.

Lemma is_space2_first c1 c2 :
  is_space2 c1 c2 = true -> is_space c1 = false.
Proof.
  unfold is_space2, is_space. intros H.
  apply andb_true_iff in H as [H _]. apply N.eqb_eq in H. now rewrite H.
Qed.

Lemma is_space3_first c1 c2 c3 :
  is_space3 c1 c2 c3 = true ->
  is_space c1 = false /\ is_space2 c1 c2 = false.
Proof.
  unfold is_space3, is_space2, is_space. intros H.
  assert (E : N_of_ascii c1 = 225%N \/ N_of_ascii c1 = 226%N
              \/ N_of_ascii c1 = 227%N).
  { repeat (apply orb_true_iff in H as [H|H]);
      repeat (apply andb_true_iff in H as [H _]);
      apply N.eqb_eq in H; auto. }
  destruct E as [-> | [-> | ->]]; split; reflexivity.
Qed.

(** Leading whitespace characters are dropped one by one. *)
Lemma lstrip_one_space c r : one_space c = true -> lstrip (c +:+ r) = lstrip r.
Proof.
  destruct c as [|c1 [|c2 [|c3 [|c4 c]]]]; simpl; try discriminate.
  - intros ->. reflexivity.
  - intros H. rewrite (is_space2_first _ _ H), H. reflexivity.
  - intros H. destruct (is_space3_first _ _ _ H) as [E1 E2].
    rewrite E1, E2, H. reflexivity.
Qed.

Lemma append_empty x : x +:+ EmptyString = x.
Proof.
  induction x as [|c x IH]; [reflexivity|].
  change (String c (x +:+ EmptyString) = String c x). now rewrite IH.
Qed.

Lemma concat_fold l :
  String.concat EmptyString l = fold_right String.append EmptyString l.
Proof.
  induction l as [|x l IH]; [reflexivity|].
  destruct l as [|y l].
  - simpl. now rewrite append_empty.
  - change (String.concat EmptyString (x :: y :: l))
      with (x +:+ (EmptyString +:+ String.concat EmptyString (y :: l))).
    rewrite IH. reflexivity.
Qed.

Lemma lstrip_all_space chars :
  Forall (fun c => one_space c = true) chars ->
  lstrip (String.concat EmptyString chars) = EmptyString.
Proof.
  rewrite concat_fold.
  induction 1 as [|c chars Hc _ IH]; simpl; [reflexivity|].
  now rewrite lstrip_one_space.
Qed.

(** X14: when no exception interrupts the attempt, the error message of
    a non-zero exit is ["Exit code: N"] only when stderr is empty;
    otherwise it is stderr without its leading and trailing whitespace,
    so a stderr that is made of whitespace characters alone gives the
    empty message.  The statement is for jobs whose integers fit the
    table and whose retry time, if one is due, is an instant a
    [datetime] can hold. *)
Theorem nonzero_exit_error_message cfg now now_save returncode stdout stderr
    job db :
  returncode <> 0 ->
  0 <= attempts job ->
  let n := attempts job + 1 in
  storable (set_attempts n job) = true ->
  (n < max_retries job ->
   Clock.representable now = true
   /\ Clock.representable (now + backoff_base cfg ^ n * 1000000) = true) ->
  exists stored,
    get_job (id job)
      (snd (Worker._execute_job cfg now now_save
              (Returned returncode stdout stderr) job db)) = Some stored
    /\ (stderr = EmptyString ->
        error_message stored =
          Some ("Exit code: " +:+ str_of_int returncode))
    /\ (stderr <> EmptyString ->
        error_message stored = Some (strip stderr))
    /\ (stderr <> EmptyString ->
        forall chars,
          Forall (fun c => one_space c = true) chars ->
          stderr = String.concat EmptyString chars ->
          error_message stored = Some EmptyString).
Proof.
  intros Hrc _ n _ Hrange.
  assert (E : error_message
                (Worker.classify cfg now (Returned returncode stdout stderr)
                   job)
              = Some (if String.eqb stderr EmptyString
                      then "Exit code: " +:+ str_of_int returncode
                      else strip stderr)).
  { unfold Worker.classify, Worker.try_block.
    destruct (Z.eqb_spec returncode 0); [contradiction|].
    rewrite _handle_job_failure_in_range by exact Hrange.
    cbn [fst]. now destruct (_ >=? _). }
  eexists. split; [apply _execute_job_stored|].
  cbn [error_message set_lock set_updated_at]. rewrite E. repeat split.
  - now intros ->.
  - intros Hne. now destruct (String.eqb_spec stderr EmptyString).
  - intros Hne chars Hsp ->.
    destruct (String.eqb_spec (String.concat EmptyString chars) EmptyString);
      [contradiction|].
    unfold strip. now rewrite lstrip_all_space.
Qed.

Lemma nonzero_exit_error_message_witness :
  let job := mkJob "j4" "false" "processing" 0 3 None 2 "c" "u"
               None None None None in
  let stderr := " " +:+ Samples.nbsp +:+ Samples.emsp in
  1 <> 0
  /\ 0 <= attempts job
  /\ storable (set_attempts (attempts job + 1) job) = true
  /\ (attempts job + 1 < max_retries job ->
      Clock.representable Samples.t0 = true
      /\ Clock.representable
           (Samples.t0 + backoff_base default_config ^ (attempts job + 1)
                         * 1000000) = true)
  /\ exists stored,
       get_job (id job)
         (snd (Worker._execute_job default_config Samples.t0 Samples.t0
                 (Returned 1 "" stderr) job empty_storage)) = Some stored
       /\ (stderr = EmptyString ->
           error_message stored = Some ("Exit code: " +:+ str_of_int 1))
       /\ (stderr <> EmptyString -> error_message stored = Some (strip stderr))
       /\ (stderr <> EmptyString ->
           forall chars,
             Forall (fun c => one_space c = true) chars ->
             stderr = String.concat EmptyString chars ->
             error_message stored = Some EmptyString).
Proof.
  split; [lia|]. split; [simpl; lia|]. split; [reflexivity|].
  split; [intros _; split; reflexivity|].
  apply (nonzero_exit_error_message default_config Samples.t0 Samples.t0 1
           "" (" " +:+ Samples.nbsp +:+ Samples.emsp)
           (mkJob "j4" "false" "processing" 0 3 None 2 "c" "u"
              None None None None) empty_storage);
    [lia|simpl; lia|reflexivity|intros _; split; reflexivity].
Defined.

(** X15: the message stored for a timed-out attempt on a job whose
    integers fit the table names the job's own timeout when it has one
    that is not 0, and the configured [job_timeout] otherwise.  That is
    the timeout the command was run with, except for a job whose timeout
    is 0: the command is run with 0 and the message names
    [job_timeout]. *)
Theorem timeout_error_message cfg now now_save job db :
  storable (set_attempts (attempts job + 1) job) = true ->
  exists stored,
    get_job (id job)
      (snd (Worker._execute_job cfg now now_save TimeoutExpired job db))
      = Some stored
    /\ error_message stored =
         Some ("Job timed out after "
                 +:+ str_of_int (Worker.timeout_used cfg job)
                 +:+ " seconds")
    /\ (timeout job <> Some 0 ->
        Worker.timeout_used cfg job = timeout_secs cfg job)
    /\ (timeout job = Some 0 ->
        timeout_secs cfg job = 0
        /\ Worker.timeout_used cfg job = job_timeout cfg).
Proof.
  intros _.
  eexists. split; [apply _execute_job_stored|].
  split; [|split].
  - try_block_paths TimeoutExpired; reflexivity.
  - unfold Worker.timeout_used, timeout_secs.
    destruct (timeout job) as [t|]; [|reflexivity].
    destruct (Z.eqb_spec t 0) as [->|]; [congruence|reflexivity].
  - unfold Worker.timeout_used, timeout_secs. now intros ->.
Qed.

Lemma timeout_error_message_witness :
  let job :=
    mkJob "j5" "sleep 10" "processing" 0 0 (Some 1) 2
      "2026-11-04T10:00:00.250000Z" "2026-11-04T10:00:00.250000Z"
      None None None None in
  storable (set_attempts (attempts job + 1) job) = true
  /\ exists stored,
       get_job (id job)
         (snd (Worker._execute_job default_config Samples.t0 Samples.t0
                 TimeoutExpired job empty_storage)) = Some stored
       /\ error_message stored = Some "Job timed out after 1 seconds"
       /\ (timeout job <> Some 0 ->
           Worker.timeout_used default_config job
           = timeout_secs default_config job)
       /\ (timeout job = Some 0 ->
           timeout_secs default_config job = 0
           /\ Worker.timeout_used default_config job
              = job_timeout default_config).
Proof.
  split; [reflexivity|].
  apply (timeout_error_message default_config Samples.t0 Samples.t0
           (mkJob "j5" "sleep 10" "processing" 0 0 (Some 1) 2
              "2026-11-04T10:00:00.250000Z" "2026-11-04T10:00:00.250000Z"
              None None None None) empty_storage).
  reflexivity.
Defined.

(** ** More on enqueue *)

Lemma delete_rows_absent i rows :
  List.find (has_id i) rows = None -> delete_rows i rows = rows.
Proof.
  induction rows as [|row rows IH]; simpl; [reflexivity|].
  destruct (has_id i row); [discriminate|]. simpl.
  intros H. now rewrite IH.
Qed.

Lemma jobs_get_config db : jobs (snd (get_config db)) = jobs db.
Proof. unfold get_config. now destruct (config db). Qed.

Lemma get_job_get_config k db : get_job k (snd (get_config db)) = get_job k db.
Proof. unfold get_job. now rewrite jobs_get_config. Qed.

Lemma keyword_opt_int data k v :
  keyword data as_opt_int k None = Built v -> v = given_opt_int data k.
Proof.
  unfold keyword, given_opt_int.
  destruct (data !! k) as [[| |]|]; simpl; congruence.
Qed.

Lemma keyword_int_typed data k dflt v :
  keyword data as_int k dflt = Built v ->
  data !! k = Some (PInt v) \/ (data !! k = None /\ v = dflt).
Proof.
  unfold keyword.
  destruct (data !! k) as [[| |]|]; simpl; intros [=]; subst; auto.
Qed.

Lemma from_dict_max_retries data now job :
  from_dict data now = Built job ->
  data !! "max_retries" = Some (PInt (max_retries job))
  \/ (data !! "max_retries" = None /\ max_retries job = 3).
Proof.
  unfold from_dict. intros H.
  apply bind_built in H as (args & _ & H).
  apply bind_built in H as (j_id & _ & H).
  apply bind_built in H as (j_command & _ & H).
  apply bind_built in H as (j_state & _ & H).
  apply bind_built in H as (j_attempts & _ & H).
  apply bind_built in H as (j_max & Hmax & H).
  repeat (apply bind_built in H as (? & _ & H)).
  injection H as <-. simpl. now apply keyword_int_typed.
Qed.

Lemma from_dict_scheduling data now job :
  from_dict data now = Built job ->
  priority job = given_int data "priority" 2
  /\ timeout job = given_opt_int data "timeout"
  /\ max_retries job = given_int data "max_retries" 3.
Proof.
  unfold from_dict. intros H.
  apply bind_built in H as (args & _ & H).
  apply bind_built in H as (j_id & _ & H).
  apply bind_built in H as (j_command & _ & H).
  apply bind_built in H as (j_state & _ & H).
  apply bind_built in H as (j_attempts & _ & H).
  apply bind_built in H as (j_max & Hmax & H).
  apply bind_built in H as (j_timeout & Htimeout & H).
  apply bind_built in H as (j_priority & Hpriority & H).
  repeat (apply bind_built in H as (? & _ & H)).
  injection H as <-. simpl.
  apply keyword_int in Hmax. apply keyword_int in Hpriority.
  apply keyword_opt_int in Htimeout. now repeat split.
Qed.

Lemma lookup_setdefault (d : gmap string pyval) k v k' :
  match d !! k with
  | Some _ => d
  | None => <[k := v]> d
  end !! k' = if decide (k = k') then Some (default v (d !! k)) else d !! k'.
Proof.
  destruct (d !! k) as [w|] eqn:E.
  - case_decide; [subst k'; now rewrite E|reflexivity].
  - rewrite lookup_insert. now case_decide.
Qed.

Lemma fill_defaults_lookup cfg opt_priority opt_timeout data k :
  fill_defaults cfg opt_priority opt_timeout data !! k =
    if decide ("timeout" = k) then
      Some (match opt_timeout with
            | Some t => PInt t
            | None => default PNone (data !! "timeout")
            end)
    else if decide ("priority" = k) then
      Some (match opt_priority with
            | Some label => PInt (priority_map label)
            | None => default (PInt 2) (data !! "priority")
            end)
    else if decide ("max_retries" = k) then
      Some (default (PInt (cfg_max_retries cfg)) (data !! "max_retries"))
    else data !! k.
Proof.
  unfold fill_defaults.
  set (d1 := match data !! "max_retries" with
             | Some _ => data
             | None => <["max_retries" := PInt (cfg_max_retries cfg)]> data
             end).
  assert (H1 : forall k',
             d1 !! k' =
               if decide ("max_retries" = k')
               then Some (default (PInt (cfg_max_retries cfg))
                            (data !! "max_retries"))
               else data !! k')
    by (intros k'; apply lookup_setdefault).
  clearbody d1.
  set (d2 := match opt_priority with
             | Some label => <["priority" := PInt (priority_map label)]> d1
             | None =>
                 match d1 !! "priority" with
                 | Some _ => d1
                 | None => <["priority" := PInt 2]> d1
                 end
             end).
  assert (H2 : forall k',
             d2 !! k' =
               if decide ("priority" = k')
               then Some (match opt_priority with
                          | Some label => PInt (priority_map label)
                          | None => default (PInt 2) (d1 !! "priority")
                          end)
               else d1 !! k').
  { intros k'. subst d2. destruct opt_priority;
      [apply lookup_insert|apply lookup_setdefault]. }
  clearbody d2.
  assert (H3 : forall k',
             match opt_timeout with
             | Some t => <["timeout" := PInt t]> d2
             | None =>
                 match d2 !! "timeout" with
                 | Some _ => d2
                 | None => <["timeout" := PNone]> d2
                 end
             end !! k' =
               if decide ("timeout" = k')
               then Some (match opt_timeout with
                          | Some t => PInt t
                          | None => default PNone (d2 !! "timeout")
                          end)
               else d2 !! k').
  { intros k'. destruct opt_timeout;
      [apply lookup_insert|apply lookup_setdefault]. }
  rewrite H3. rewrite (H2 "timeout"), (H1 "timeout"), (H2 k), (H1 k).
  rewrite (H1 "priority").
  repeat case_decide; try discriminate; reflexivity.
Qed.

Lemma fill_defaults_max_retries cfg opt_priority opt_timeout data :
  fill_defaults cfg opt_priority opt_timeout data !! "max_retries" =
    Some (default (PInt (cfg_max_retries cfg)) (data !! "max_retries")).
Proof.
  rewrite fill_defaults_lookup.
  repeat case_decide; try discriminate; congruence.
Qed.

Lemma fill_defaults_priority cfg opt_priority opt_timeout data :
  fill_defaults cfg opt_priority opt_timeout data !! "priority" =
    Some (match opt_priority with
          | Some label => PInt (priority_map label)
          | None => default (PInt 2) (data !! "priority")
          end).
Proof.
  rewrite fill_defaults_lookup.
  repeat case_decide; try discriminate; congruence.
Qed.

Lemma fill_defaults_timeout cfg opt_priority opt_timeout data :
  fill_defaults cfg opt_priority opt_timeout data !! "timeout" =
    Some (match opt_timeout with
          | Some t => PInt t
          | None => default PNone (data !! "timeout")
          end).
Proof.
  rewrite fill_defaults_lookup.
  repeat case_decide; try discriminate; congruence.
Qed.

(** X16: the defaults of [enqueue].  The stored job takes its priority
    from the [--priority] option when it is given (one of the three labels
    the option accepts: high 1, medium 2, low 3) and else from the JSON, 2
    when the JSON has none; its timeout
    from [--timeout] when given and else from the JSON, [None] when the
    JSON has none; its [max_retries] from the JSON and else from the
    stored configuration. *)
Theorem enqueue_defaults opt_priority opt_timeout job_data now now_save db r
    job_id :
  (forall label, opt_priority = Some label ->
                 In label ["high"; "medium"; "low"]) ->
  enqueue opt_priority opt_timeout job_data now now_save db = Some r ->
  exit_code r = 0 ->
  job_data !! "id" = Some (PStr job_id) ->
  exists stored,
    get_job job_id (db_after r) = Some stored
    /\ priority stored =
         match opt_priority with
         | Some label => priority_map label
         | None => given_int job_data "priority" 2
         end
    /\ timeout stored =
         match opt_timeout with
         | Some t => Some t
         | None => given_opt_int job_data "timeout"
         end
    /\ max_retries stored =
         given_int job_data "max_retries"
           (cfg_max_retries (fst (get_config db))).
Proof.
  intros _ Hr Hexit Hid.
  destruct (enqueue_stored _ _ _ _ _ _ _ Hr Hexit)
    as (job & Hbuilt & _ & _ & Hget).
  pose proof (from_dict_built _ _ _ Hbuilt) as (Hjid & _).
  pose proof (from_dict_max_retries _ _ _ Hbuilt) as Hmax.
  apply from_dict_scheduling in Hbuilt as (Hp & Ht & Hm).
  rewrite fill_defaults_other in Hjid by discriminate.
  rewrite Hid in Hjid. injection Hjid as Hjid.
  rewrite <- Hjid in Hget. eexists. split; [exact Hget|].
  cbn [priority timeout max_retries set_lock set_updated_at].
  unfold given_int in Hp, Hm. unfold given_opt_int in Ht.
  rewrite fill_defaults_priority in Hp.
  rewrite fill_defaults_timeout in Ht.
  rewrite fill_defaults_max_retries in Hm.
  unfold given_int, given_opt_int.
  split; [|split].
  - destruct opt_priority; [exact Hp|].
    rewrite Hp. now destruct (job_data !! "priority") as [[| |]|].
  - destruct opt_timeout; [exact Ht|].
    rewrite Ht. now destruct (job_data !! "timeout") as [[| |]|].
  - rewrite fill_defaults_max_retries in Hmax.
    destruct Hmax as [Hmax|[Hmax _]]; [|discriminate].
    destruct (job_data !! "max_retries") as [[| |]|]; simpl in Hmax;
      congruence.
Qed.

Lemma enqueue_defaults_witness :
  let stored :=
    mkJob "j1" "true" "pending" 0 3 (Some 30) 1
      "2026-11-04T10:00:00.250000Z" "2026-11-04T10:00:00.250000Z"
      None None None None in
  let r := mkResult 0 None (mkStorage [stored] (Some default_config)) in
  (forall label, Some "high" = Some label ->
                 In label ["high"; "medium"; "low"])
  /\ enqueue (Some "high") (Some 30) Samples.j1_json Samples.t0 Samples.t0
       empty_storage = Some r
  /\ exit_code r = 0
  /\ Samples.j1_json !! "id" = Some (PStr "j1")
  /\ exists stored',
       get_job "j1" (db_after r) = Some stored'
       /\ priority stored' = priority_map "high"
       /\ timeout stored' = Some 30
       /\ max_retries stored' =
            given_int Samples.j1_json "max_retries"
              (cfg_max_retries (fst (get_config empty_storage))).
Proof.
  split; [intros label [= <-]; now left|].
  split; [vm_compute; reflexivity|].
  split; [reflexivity|].
  split; [vm_compute; reflexivity|].
  apply (enqueue_defaults (Some "high") (Some 30) Samples.j1_json Samples.t0
           Samples.t0 empty_storage).
  - intros label [= <-]. now left.
  - vm_compute. reflexivity.
  - reflexivity.
  - vm_compute. reflexivity.
Defined.

(** X17: [enqueue] rejects a job whose [id] is already stored: exit
    status 1, an error on stderr, and the [jobs] table as it was; the
    stored job is not overwritten. *)
Theorem enqueue_duplicate_rejected opt_priority opt_timeout job_data now
    now_save db r job_id existing :
  job_data !! "id" = Some (PStr job_id) ->
  get_job job_id db = Some existing ->
  enqueue opt_priority opt_timeout job_data now now_save db = Some r ->
  exit_code r = 1 /\ err r <> None /\ jobs (db_after r) = jobs db.
Proof.
  intros Hid Hex Hr. unfold enqueue in Hr.
  pose proof (jobs_get_config db) as Hjobs.
  pose proof (get_job_get_config job_id db) as Hget.
  destruct (get_config db) as [cfg db1]. simpl in *.
  destruct (from_dict _ now) as [job|text|key] eqn:Hbuilt;
    [|injection Hr as <-; now repeat split|discriminate].
  apply from_dict_built in Hbuilt as (Hjid & _).
  rewrite fill_defaults_other in Hjid by discriminate.
  rewrite Hid in Hjid. injection Hjid as Hjid.
  rewrite <- Hjid, Hget, Hex in Hr. injection Hr as <-. now repeat split.
Qed.

Lemma enqueue_duplicate_rejected_witness :
  let existing :=
    mkJob "j1" "true" "pending" 0 3 None 2
      "2026-11-04T10:00:00.250000Z" "2026-11-04T10:00:00.250000Z"
      None None None None in
  let r :=
    mkResult 1 (Some "Error: Job with ID 'j1' already exists")
      Samples.after_enqueue in
  Samples.j1_json !! "id" = Some (PStr "j1")
  /\ get_job "j1" Samples.after_enqueue = Some existing
  /\ enqueue None None Samples.j1_json (Samples.t0 + 5) (Samples.t0 + 5)
       Samples.after_enqueue = Some r
  /\ exit_code r = 1 /\ err r <> None
  /\ jobs (db_after r) = jobs Samples.after_enqueue.
Proof.
  split; [vm_compute; reflexivity|].
  split; [vm_compute; reflexivity|].
  split; [vm_compute; reflexivity|].
  apply (enqueue_duplicate_rejected None None Samples.j1_json
           (Samples.t0 + 5) (Samples.t0 + 5) Samples.after_enqueue _ "j1"
           (mkJob "j1" "true" "pending" 0 3 None 2
              "2026-11-04T10:00:00.250000Z" "2026-11-04T10:00:00.250000Z"
              None None None None));
    vm_compute; reflexivity.
Defined.

(** X18: a JSON object without [id] or without [command] is rejected
    whatever else it holds: exit status 1, an error on stderr, and the
    [jobs] table as it was. *)
Theorem enqueue_missing_field opt_priority opt_timeout job_data now now_save
    db :
  job_data !! "id" = None \/ job_data !! "command" = None ->
  exists r,
    enqueue opt_priority opt_timeout job_data now now_save db = Some r
    /\ exit_code r = 1 /\ err r <> None /\ jobs (db_after r) = jobs db.
Proof.
  intros Hmiss. unfold enqueue.
  pose proof (jobs_get_config db) as Hjobs.
  destruct (get_config db) as [cfg db1]. simpl in *.
  assert (E : exists text,
             from_dict (fill_defaults cfg opt_priority opt_timeout job_data)
               now = TypeError text).
  { unfold from_dict, required.
    rewrite !fill_defaults_other by discriminate.
    destruct (job_data !! "id"), (job_data !! "command");
      destruct Hmiss; try discriminate; simpl; eauto. }
  destruct E as [text ->]. eexists. split; [reflexivity|].
  now repeat split.
Qed.

Lemma enqueue_missing_field_witness :
  let job_data : gmap string pyval := {[ "command" := PStr "true" ]} in
  (job_data !! "id" = None \/ job_data !! "command" = None)
  /\ exists r,
       enqueue None None job_data Samples.t0 Samples.t0 empty_storage
         = Some r
       /\ exit_code r = 1 /\ err r <> None
       /\ jobs (db_after r) = jobs empty_storage.
Proof.
  split; [left; vm_compute; reflexivity|].
  apply (enqueue_missing_field None None {[ "command" := PStr "true" ]}
           Samples.t0 Samples.t0 empty_storage).
  left. vm_compute. reflexivity.
Defined.

(** X19: a successful [enqueue] adds one row at the end of the table and
    changes no other: the new row is unlocked, stamped with the time of
    the save, its [id] was not stored before, and every other job reads
    as before. *)
Theorem enqueue_appends opt_priority opt_timeout job_data now now_save db r :
  enqueue opt_priority opt_timeout job_data now now_save db = Some r ->
  exit_code r = 0 ->
  exists row,
    jobs (db_after r) = jobs db ++ [row]
    /\ job_data !! "id" = Some (PStr (id row))
    /\ get_job (id row) db = None
    /\ locked_by row = None /\ locked_at row = None
    /\ updated_at row = Clock.utc_stamp now_save
    /\ (forall k, k <> id row -> get_job k (db_after r) = get_job k db).
Proof.
  intros Hr Hexit.
  destruct (enqueue_stored _ _ _ _ _ _ _ Hr Hexit)
    as (job & Hbuilt & Hnew & Hjobs & _).
  apply from_dict_built in Hbuilt as (Hjid & _).
  rewrite fill_defaults_other in Hjid by discriminate.
  rewrite get_job_get_config in Hnew. rewrite jobs_get_config in Hjobs.
  rewrite (delete_rows_absent _ _ (get_job_none _ _ Hnew)) in Hjobs.
  eexists. split; [exact Hjobs|]. simpl. repeat split; try assumption.
  intros k Hk. unfold get_job. rewrite Hjobs. f_equal.
  destruct (List.find (has_id k) (jobs db)) as [x|] eqn:F.
  - now apply find_app_some.
  - rewrite find_app_none by assumption. simpl. unfold has_id at 1. simpl.
    destruct (String.eqb_spec (id job) k); [congruence|reflexivity].
Qed.

Lemma enqueue_appends_witness :
  let row :=
    mkJob "j1" "true" "pending" 0 3 None 2
      "2026-11-04T10:00:00.250000Z" "2026-11-04T10:00:00.250000Z"
      None None None None in
  let r := mkResult 0 None (mkStorage [row] (Some default_config)) in
  enqueue None None Samples.j1_json Samples.t0 Samples.t0 empty_storage
    = Some r
  /\ exit_code r = 0
  /\ exists row',
       jobs (db_after r) = jobs empty_storage ++ [row']
       /\ Samples.j1_json !! "id" = Some (PStr (id row'))
       /\ get_job (id row') empty_storage = None
       /\ locked_by row' = None /\ locked_at row' = None
       /\ updated_at row' = Clock.utc_stamp Samples.t0
       /\ (forall k, k <> id row' ->
                     get_job k (db_after r) = get_job k empty_storage).
Proof.
  split; [vm_compute; reflexivity|]. split; [reflexivity|].
  apply (enqueue_appends None None Samples.j1_json Samples.t0 Samples.t0
           empty_storage);
    vm_compute; reflexivity.
Defined.

(** ** clear and dlq clear *)

Lemma filter_filter_rows (f g : Job -> bool) rows :
  List.filter f (List.filter g rows) =
    List.filter (fun row => g row && f row) rows.
Proof.
  induction rows as [|row rows IH]; simpl; [reflexivity|].
  destruct (g row); simpl; [|assumption].
  destruct (f row); now rewrite IH.
Qed.

Lemma jobs_delete_all victims : forall db,
  jobs (delete_all victims db) =
    List.filter
      (fun row => forallb (fun v => negb (has_id (id v) row)) victims)
      (jobs db).
Proof.
  unfold delete_all.
  induction victims as [|v victims IH]; intros db; simpl.
  - induction (jobs db) as [|row rows IHr]; simpl; [reflexivity|].
    now rewrite <- IHr.
  - rewrite IH. unfold delete_job, delete_rows. simpl.
    now rewrite filter_filter_rows.
Qed.

Lemma same_id_same_row rows a b :
  NoDup (List.map id rows) -> In a rows -> In b rows -> id a = id b -> a = b.
Proof.
  intros Hnd Ha Hb E.
  pose proof (find_unique_id rows a Hnd Ha) as Fa.
  pose proof (find_unique_id rows b Hnd Hb) as Fb.
  rewrite E in Fa. congruence.
Qed.

Lemma filter_none (f : Job -> bool) rows :
  (forall row, In row rows -> f row = false) -> List.filter f rows = [].
Proof.
  induction rows as [|row rows IH]; simpl; intros H; [reflexivity|].
  rewrite (H row) by now left. apply IH. intros r Hr. apply H. now right.
Qed.

(** X20: [clear] without a state empties the [jobs] table, locked and
    processing jobs included. *)
Theorem clear_jobs_all db : jobs (clear_jobs None db) = [].
Proof.
  unfold clear_jobs. rewrite jobs_delete_all. apply filter_none.
  intros row Hrow.
  apply not_true_is_false. intros Hall.
  rewrite forallb_forall in Hall.
  specialize (Hall (job_of_row row) (in_map job_of_row _ _ Hrow)).
  change (has_id (id (job_of_row row)) row) with (has_id (id row) row)
    in Hall.
  now rewrite has_id_refl in Hall.
Qed.

Example clear_jobs_ex :
  jobs (clear_jobs (Some "DEAD") (db Exhausted.final)) = []
  /\ clear_jobs (Some "gone") (db Exhausted.final) = db Exhausted.final
  /\ jobs (clear_jobs (Some EmptyString) Samples.after_enqueue) = []
  /\ clear_jobs (Some "Dead") Samples.after_enqueue = Samples.after_enqueue.
Proof. vm_compute. repeat split. Qed.

(** X21: when the ids are unique, [dlq clear] removes exactly the dead
    jobs: the rows that are left are the rows that were not dead, in
    their order. *)
Theorem dlq_clear_removes_dead db :
  unique_ids db ->
  jobs (dlq_clear db) =
    List.filter (fun row => negb (String.eqb (state row) JobState.DEAD))
      (jobs db).
Proof.
  intros Hu. unfold dlq_clear. rewrite jobs_delete_all.
  apply List.filter_ext_in. intros row Hrow.
  destruct (String.eqb_spec (state row) JobState.DEAD) as [Hd|Hd]; simpl.
  - apply not_true_is_false. intros Hall.
    rewrite forallb_forall in Hall.
    assert (Hin : In (job_of_row row)
                    (get_jobs_by_state JobState.DEAD db)).
    { unfold get_jobs_by_state. apply in_map.
      apply (Permutation_in row
               (Permutation_sym (order_by_perm dispatch_le _))).
      apply filter_In. split; [assumption|]. now apply String.eqb_eq. }
    specialize (Hall _ Hin).
    change (has_id (id (job_of_row row)) row) with (has_id (id row) row)
      in Hall.
    now rewrite has_id_refl in Hall.
  - apply forallb_forall. intros v Hv.
    unfold get_jobs_by_state in Hv.
    apply in_map_iff in Hv as (r & <- & Hr).
    apply (Permutation_in r (order_by_perm dispatch_le _)) in Hr.
    apply filter_In in Hr as [Hr Hrd]. apply String.eqb_eq in Hrd.
    change (has_id (id (job_of_row r)) row) with (has_id (id r) row).
    destruct (has_id (id r) row) eqn:E; [|reflexivity].
    apply has_id_eq in E.
    rewrite (same_id_same_row _ _ _ Hu Hrow Hr E) in Hd. contradiction.
Qed.

Lemma dlq_clear_removes_dead_witness :
  unique_ids (db Exhausted.final)
  /\ jobs (dlq_clear (db Exhausted.final)) =
       List.filter (fun row => negb (String.eqb (state row) JobState.DEAD))
         (jobs (db Exhausted.final)).
Proof.
  assert (Hu : unique_ids (db Exhausted.final)).
  { unfold unique_ids. vm_compute. repeat constructor. intros H.
    inversion H. }
  split; [exact Hu|].
  apply (dlq_clear_removes_dead (db Exhausted.final) Hu).
Defined.

(** ** Counting and the dashboard *)

Lemma count_by_state_lookup rows st :
  count_by_state rows !! st =
    if rows_in_state st rows =? 0 then None
    else Some (rows_in_state st rows).
Proof.
  unfold rows_in_state.
  induction rows as [|row rows IH]; simpl; [apply lookup_empty|].
  rewrite lookup_insert. case_decide as E.
  - rewrite E, IH, String.eqb_refl. simpl length.
    set (n := length
                (List.filter (fun r => String.eqb (state r) st) rows)).
    replace (Z.of_nat (S n) =? 0) with false
      by (symmetry; apply Z.eqb_neq; lia).
    destruct (Z.eqb_spec (Z.of_nat n) 0) as [E0|E0]; simpl; f_equal; lia.
  - destruct (String.eqb_spec (state row) st); [contradiction|]. exact IH.
Qed.

Lemma fold_zero_entries (states : list string) : forall (m : gmap string Z) st,
  fold_left
    (fun counts s =>
       match counts !! s with
       | Some _ => counts
       | None => <[s := 0]> counts
       end) states m !! st =
    match m !! st with
    | Some v => Some v
    | None => if existsb (String.eqb st) states then Some 0 else None
    end.
Proof.
  induction states as [|s states IH]; intros m st; simpl.
  - now destruct (m !! st).
  - rewrite IH. destruct (m !! s) as [v|] eqn:Es.
    + destruct (m !! st) as [w|] eqn:Et; [reflexivity|].
      destruct (String.eqb_spec st s) as [->|]; [congruence|reflexivity].
    + rewrite lookup_insert. case_decide as E.
      * subst st. now rewrite Es, String.eqb_refl.
      * destruct (m !! st); [reflexivity|].
        destruct (String.eqb_spec st s); [congruence|reflexivity].
Qed.

(** X22: [get_job_counts] gives each of the five states the number of
    rows in that state, 0 included; a state outside the five has an entry
    only when some row is in it. *)
Theorem get_job_counts_lookup db st :
  (In st all_states ->
   get_job_counts db !! st = Some (rows_in_state st (jobs db)))
  /\ (~ In st all_states ->
      get_job_counts db !! st =
        if rows_in_state st (jobs db) =? 0 then None
        else Some (rows_in_state st (jobs db))).
Proof.
  unfold get_job_counts. rewrite fold_zero_entries, count_by_state_lookup.
  split; intros Hst.
  - assert (E : existsb (String.eqb st) all_states = true).
    { apply existsb_exists. exists st. split; [assumption|].
      apply String.eqb_refl. }
    rewrite E. destruct (Z.eqb_spec (rows_in_state st (jobs db)) 0) as [->|];
      reflexivity.
  - assert (E : existsb (String.eqb st) all_states = false).
    { apply not_true_is_false. intros H. apply existsb_exists in H
        as (s & Hs & Hes). apply String.eqb_eq in Hes. now subst s. }
    rewrite E. now destruct (rows_in_state st (jobs db) =? 0).
Qed.



(** ** Job.to_dict *)

(** X24: [Job.from_dict] undoes [Job.to_dict]: the dictionary of a job
    holds all its thirteen fields, the two lock fields included, and the
    constructor rebuilds the same job from it. *)
Theorem from_dict_to_dict job now : from_dict (to_dict job) now = Built job.
Proof.
  destruct job as [i c s a m t p cr u n e lb la].
  destruct t, n, e, lb, la; vm_compute; reflexivity.
Qed.

(** ** Release and retry *)

Lemma unlocked_row_fixed row :
  locked_by row = None -> locked_at row = None ->
  set_lock None None row = row.
Proof. destruct row. simpl. now intros -> ->. Qed.

Lemma filter_eligible_release now stale_before k rows :
  Forall lock_coherent rows ->
  List.filter (eligible now stale_before)
    (update_rows k (set_lock None None) rows) =
  List.filter (eligible now stale_before) rows.
Proof.
  induction 1 as [|row rows Hrow _ IH]; simpl; [reflexivity|].
  rewrite IH. destruct (has_id k row); [|reflexivity].
  destruct (String.eqb_spec (state row) JobState.PROCESSING) as [E|NE].
  - rewrite (processing_not_eligible now stale_before row E).
    now rewrite (processing_not_eligible now stale_before
                   (set_lock None None row) E).
  - destruct (Hrow NE) as [Hby Hat].
    now rewrite (unlocked_row_fixed row Hby Hat).
Qed.

Lemma scan_order_release k rows :
  scan_order (update_rows k (set_lock None None) rows) =
  update_rows k (set_lock None None) (scan_order rows).
Proof.
  assert (Hf : forall s,
             List.filter (fun row => String.eqb (state row) s)
               (update_rows k (set_lock None None) rows) =
             update_rows k (set_lock None None)
               (List.filter (fun row => String.eqb (state row) s) rows)).
  { intros s. unfold update_rows.
    induction rows as [|row rows IH]; simpl; [reflexivity|].
    assert (E : state (if has_id k row then set_lock None None row else row)
                = state row) by now destruct (has_id k row).
    rewrite E. destruct (String.eqb (state row) s); simpl; now rewrite IH. }
  unfold scan_order. rewrite !Hf. unfold update_rows.
  now rewrite List.map_app.
Qed.

Lemma scan_order_coherent rows :
  Forall lock_coherent rows -> Forall lock_coherent (scan_order rows).
Proof.
  rewrite !List.Forall_forall. intros H row Hin.
  apply scan_order_in in Hin as [Hin _]. now apply H.
Qed.

(** X25: [release_job] does not put a job back in the queue.  In a
    database where only processing rows hold locks (every reachable one),
    [acquire_job] returns the same job after a release as before it: a
    job released by the [finally] clause of [Worker.start] stays in
    [processing] until a worker starts. *)
Theorem release_job_not_dispatchable job_id worker_id now db_now db :
  Forall lock_coherent (jobs db) ->
  fst (acquire_job worker_id now db_now (release_job job_id db)) =
    fst (acquire_job worker_id now db_now db)
  /\ (forall k, option_map state (get_job k (release_job job_id db)) =
                option_map state (get_job k db)).
Proof.
  intros H. split.
  - unfold acquire_job, select_candidate, release_job. simpl.
    rewrite scan_order_release.
    rewrite (filter_eligible_release _ _ _ _ (scan_order_coherent _ H)).
    now destruct (head _).
  - intros k. now rewrite get_job_release_job.
Qed.

Lemma release_job_not_dispatchable_witness :
  Forall lock_coherent (jobs Crash.store)
  /\ fst (acquire_job "worker-2" Crash.next_day Crash.next_day
            (release_job "j7" Crash.store)) =
       fst (acquire_job "worker-2" Crash.next_day Crash.next_day Crash.store)
  /\ (forall k, option_map state (get_job k (release_job "j7" Crash.store)) =
                option_map state (get_job k Crash.store)).
Proof.
  assert (H : Forall lock_coherent (jobs Crash.store)).
  { vm_compute. constructor; [|constructor]. intros Hst.
    now contradiction Hst. }
  split; [exact H|].
  apply (release_job_not_dispatchable "j7" "worker-2" Crash.next_day
           Crash.next_day Crash.store H).
Defined.

(** X26: a dead job that has used up its retries and is retried from the
    DLQ without [--reset-attempts] has a single attempt: if that attempt
    does not succeed the job is dead again, with one attempt more.  The
    statement is for jobs whose integers, after the attempt is counted,
    fit the table. *)
Theorem dlq_retry_without_reset job_id t db job worker_id now db_now next cfg
    now' now_save out :
  unique_ids db ->
  get_job job_id db = Some job ->
  state job = JobState.DEAD ->
  attempts job >= max_retries job ->
  storable (set_attempts (attempts job + 1) job) = true ->
  let db1 := db_after (dlq_retry job_id false t db) in
  fst (acquire_job worker_id now db_now db1) = Some next ->
  id next = job_id ->
  failed_attempt out ->
  exists stored,
    get_job job_id
      (snd (Worker._execute_job cfg now' now_save out next
              (snd (acquire_job worker_id now db_now db1)))) = Some stored
    /\ state stored = JobState.DEAD
    /\ attempts stored = attempts job + 1
    /\ next_retry_at stored = None.
Proof.
  intros Hu Hget Hdead Hbound _ db1 Hacq Hnext Hfail.
  destruct (get_job_some _ _ _ Hget) as (Hid & _).
  assert (Hdb1 : db1 = snd (save_job t
                              (set_next_retry_at None
                                 (set_error_message None
                                    (set_state JobState.PENDING job))) db)).
  { subst db1. unfold dlq_retry. now rewrite Hget, Hdead. }
  assert (Hu1 : unique_ids db1) by (rewrite Hdb1; now apply save_job_unique).
  assert (Hget1 : get_job job_id db1 =
                    Some (set_lock None None
                            (set_updated_at (Clock.utc_stamp t)
                               (set_next_retry_at None
                                  (set_error_message None
                                     (set_state JobState.PENDING job)))))).
  { rewrite Hdb1, <- Hid.
    exact (get_job_save_job t
             (set_next_retry_at None
                (set_error_message None (set_state JobState.PENDING job)))
             db). }
  destruct (acquire_job_unfold _ _ _ _ _ Hacq) as (row & Hsel & Hrow & _).
  destruct (select_candidate_some _ _ _ _ Hsel) as (Hin & _).
  assert (Hrid : id row = job_id) by (rewrite <- Hnext, Hrow; reflexivity).
  pose proof (find_unique_id _ _ Hu1 Hin) as Hfind.
  unfold get_job in Hget1. rewrite Hrid in Hfind. rewrite Hfind in Hget1.
  cbn [option_map] in Hget1.
  assert (Hjr : job_of_row row =
                  set_lock None None
                    (set_updated_at (Clock.utc_stamp t)
                       (set_next_retry_at None
                          (set_error_message None
                             (set_state JobState.PENDING job)))))
    by congruence.
  assert (Ha : attempts next = attempts job).
  { rewrite Hrow. change (attempts (job_of_row row) = attempts job).
    now rewrite Hjr. }
  assert (Hm : max_retries next = max_retries job).
  { rewrite Hrow. change (max_retries (job_of_row row) = max_retries job).
    now rewrite Hjr. }
  rewrite <- Hnext. eexists. split; [apply _execute_job_stored|].
  destruct (classify_failed cfg now' out next Hfail) as (msg & -> & _).
  { rewrite Ha, Hm. lia. }
  rewrite Ha, Hm.
  destruct (Z.geb_spec (attempts job + 1) (max_retries job)) as [_|Hlt];
    [now repeat split|lia].
Qed.

Lemma dlq_retry_without_reset_witness :
  let job :=
    mkJob "j5" "sleep 10" "dead" 1 0 (Some 1) 2
      "2026-11-04T10:00:00.250000Z" "2026-11-04T10:00:02.250000Z"
      None (Some "Job timed out after 1 seconds") None None in
  let next :=
    mkJob "j5" "sleep 10" "processing" 1 0 (Some 1) 2
      "2026-11-04T10:00:00.250000Z" "2026-11-04T10:00:00.250008Z"
      None None None None in
  let db1 :=
    db_after (dlq_retry "j5" false (Samples.t0 + 8) (db Exhausted.final)) in
  unique_ids (db Exhausted.final)
  /\ get_job "j5" (db Exhausted.final) = Some job
  /\ state job = JobState.DEAD
  /\ attempts job >= max_retries job
  /\ storable (set_attempts (attempts job + 1) job) = true
  /\ fst (acquire_job "worker-1" (Samples.t0 + 9) (Samples.t0 + 9) db1)
     = Some next
  /\ id next = "j5"
  /\ failed_attempt (Returned 1 "" "")
  /\ exists stored,
       get_job "j5"
         (snd (Worker._execute_job default_config (Samples.t0 + 10)
                 (Samples.t0 + 10) (Returned 1 "" "") next
                 (snd (acquire_job "worker-1" (Samples.t0 + 9)
                         (Samples.t0 + 9) db1)))) = Some stored
       /\ state stored = JobState.DEAD
       /\ attempts stored = attempts job + 1
       /\ next_retry_at stored = None.
Proof.
  assert (Hu : unique_ids (db Exhausted.final)).
  { unfold unique_ids. vm_compute. repeat constructor. intros H.
    inversion H. }
  split; [exact Hu|].
  split; [vm_compute; reflexivity|].
  split; [reflexivity|].
  split; [simpl; lia|].
  split; [reflexivity|].
  split; [vm_compute; reflexivity|].
  split; [reflexivity|].
  split; [simpl; lia|].
  apply (dlq_retry_without_reset "j5" (Samples.t0 + 8) (db Exhausted.final)
           (mkJob "j5" "sleep 10" "dead" 1 0 (Some 1) 2
              "2026-11-04T10:00:00.250000Z" "2026-11-04T10:00:02.250000Z"
              None (Some "Job timed out after 1 seconds") None None)
           "worker-1" (Samples.t0 + 9) (Samples.t0 + 9)
           (mkJob "j5" "sleep 10" "processing" 1 0 (Some 1) 2
              "2026-11-04T10:00:00.250000Z" "2026-11-04T10:00:00.250008Z"
              None None None None)
           default_config (Samples.t0 + 10) (Samples.t0 + 10)
           (Returned 1 "" "") Hu).
  - vm_compute. reflexivity.
  - reflexivity.
  - simpl. lia.
  - reflexivity.
  - vm_compute. reflexivity.
  - reflexivity.
  - simpl. lia.
Defined.
